(** * analyze_compositions.py: a shallow embedding and its properties

    The development follows [src/analyze_compositions.py] top to bottom:

    - [Text]: the string primitives the script uses ([str.strip],
      [str.startswith], [in], [str.split], [str.join], [list.index],
      slicing);
    - [Regex]: the fragment of [re] the three patterns of the script need
      (literal text, a greedy starred character class, one captured greedy
      [+] class), with [re.search]'s leftmost, backtracking semantics;
    - [Py]: exceptions, parsed YAML values, [dict.get], truthiness,
      iteration, [str()];
    - [CompositionExtractor]: the methods of the class, with the same names;
    - [Spec] and [Examples]: the vocabulary of the specification and the
      documents the statements are tried on;
    - the properties, each group of lemmas followed by the statements about
      the method it serves.

    Conventions.  Text is [String.string]; a character stands for a code
    point below 256.  A parsed YAML document is a [value]: scalars are
    [None], booleans, integers and strings (floats, timestamps and binary
    scalars are outside the model); a mapping is the list of its items in
    insertion order.  A Python function that may raise returns a [result];
    [self]'s mutable attributes are threaded as an explicit [state], which
    survives an exception as it does in Python.  The interpreter's recursion
    limit is not modelled. *)

From Stdlib Require Import String Ascii List ZArith Lia Bool Arith Permutation.
From Stdlib Require Import Numbers.DecimalString.
Import ListNotations.

Open Scope list_scope.
Open Scope string_scope.

(* ================================================================= *)
(** ** Text primitives *)

Module Text.

(** [str.isspace] on one character, for code points below 256: TAB..CR,
    FS..US, SPACE, NEL and NBSP.  The class [\s] of [re] on [str] patterns
    is the same set. *)
Definition isspace (c : ascii) : bool :=
  let n := nat_of_ascii c in
  (((9 <=? n) && (n <=? 13)) || ((28 <=? n) && (n <=? 32))
   || (n =? 133) || (n =? 160))%nat.

Fixpoint lstrip (s : string) : string :=
  match s with
  | String c s' => if isspace c then lstrip s' else s
  | EmptyString => EmptyString
  end.

(** [rstrip], by recursion from the right: a character is dropped when it is
    white and everything after it has been dropped. *)
Fixpoint rstrip (s : string) : string :=
  match s with
  | EmptyString => EmptyString
  | String c s' =>
      match rstrip s' with
      | EmptyString => if isspace c then EmptyString else String c EmptyString
      | r => String c r
      end
  end.

(** [s.strip()] *)
Definition strip (s : string) : string := rstrip (lstrip s).

(** [s.startswith(p)] *)
Definition startswith (p s : string) : bool := String.prefix p s.

(** [s.endswith(suffix)] *)
Fixpoint endswith (suffix s : string) : bool :=
  if String.eqb s suffix then true
  else match s with
       | EmptyString => false
       | String _ s' => endswith suffix s'
       end.

(** [needle in hay] on strings *)
Fixpoint contains (needle hay : string) : bool :=
  if String.prefix needle hay then true
  else match hay with
       | EmptyString => false
       | String _ hay' => contains needle hay'
       end.

Definition newline : ascii := "010"%char.

(** [s.split("\n")]: never empty, [""] gives [[""]]. *)
Fixpoint split_lines (s : string) : list string :=
  match s with
  | EmptyString => [EmptyString]
  | String c s' =>
      if Ascii.eqb c newline then EmptyString :: split_lines s'
      else match split_lines s' with
           | [] => [String c EmptyString]
           | l :: ls => String c l :: ls
           end
  end.

(** [sep.join(parts)] *)
Definition join (sep : string) (parts : list string) : string :=
  String.concat sep parts.

(** [lines.index(line)]: the first position holding a string equal to
    [line]; [None] stands for Python's [ValueError]. *)
Fixpoint list_index (line : string) (lines : list string) : option nat :=
  match lines with
  | [] => None
  | l :: ls =>
      if String.eqb l line then Some 0
      else match list_index line ls with
           | Some i => Some (S i)
           | None => None
           end
  end.

(** [xs[i:j]] for [0 <= i <= j] *)
Definition slice {A : Type} (i j : nat) (xs : list A) : list A :=
  firstn (j - i) (skipn i xs).

(** The longest prefix of [s] made of characters of the class, and what
    follows it. *)
Fixpoint span (cls : ascii -> bool) (s : string) : string * string :=
  match s with
  | String c s' =>
      if cls c then let (a, b) := span cls s' in (String c a, b)
      else (EmptyString, s)
  | EmptyString => (EmptyString, EmptyString)
  end.

Fixpoint forallb_str (cls : ascii -> bool) (s : string) : bool :=
  match s with
  | EmptyString => true
  | String c s' => cls c && forallb_str cls s'
  end.

(** [s[k:]] and [s[:k]] *)
Fixpoint drop (k : nat) (s : string) : string :=
  match k, s with
  | S k', String _ s' => drop k' s'
  | _, _ => s
  end.

Fixpoint take (k : nat) (s : string) : string :=
  match k, s with
  | S k', String c s' => String c (take k' s')
  | _, _ => EmptyString
  end.

(** The rest of [s] after the prefix [p], when [s] starts with [p]. *)
Fixpoint strip_prefix (p s : string) : option string :=
  match p, s with
  | EmptyString, _ => Some s
  | String a p', String b s' =>
      if Ascii.eqb a b then strip_prefix p' s' else None
  | String _ _, EmptyString => None
  end.

End Text.

(* ================================================================= *)
(** ** The fragment of [re] the script uses *)

Module Regex.
Import Text.

(** The three patterns of the script are sequences of these items.  There is
    at most one group, and it is always a [+] over a character class. *)
Inductive item : Type :=
| Lit (text : string)                (* literal characters *)
| Star (cls : ascii -> bool)         (* [cls]*   greedy *)
| GroupPlus (cls : ascii -> bool).   (* ([cls]+) greedy, captured as group 1 *)

Definition regex : Type := list item.

(** Try [f k], then [f (k-1)], ..., down to [f lo]: the order in which a
    greedy repetition gives characters back. *)
Fixpoint try_down {A : Type} (f : nat -> option A) (lo k : nat) : option A :=
  if (k <? lo)%nat then None
  else match f k with
       | Some r => Some r
       | None => match k with
                 | O => None
                 | S k' => try_down f lo k'
                 end
       end.

(** Match the pattern at the start of [s]; [g] is group 1 so far.  The
    result is group 1 of the first successful backtracking path. *)
Fixpoint match_here (p : regex) (s : string) (g : string) : option string :=
  match p with
  | [] => Some g
  | Lit text :: p' =>
      match strip_prefix text s with
      | Some s' => match_here p' s' g
      | None => None
      end
  | Star cls :: p' =>
      try_down (fun k => match_here p' (drop k s) g)
               0 (String.length (fst (span cls s)))
  | GroupPlus cls :: p' =>
      try_down (fun k => match_here p' (drop k s) (take k s))
               1 (String.length (fst (span cls s)))
  end.

(** [re.search(p, s)]: the match at the leftmost position that has one;
    the result is [group(1)]. *)
Fixpoint re_search (p : regex) (s : string) : option string :=
  match match_here p s EmptyString with
  | Some g => Some g
  | None => match s with
            | EmptyString => None
            | String _ s' => re_search p s'
            end
  end.

End Regex.

(* ================================================================= *)
(** ** Python values, exceptions and the builtins the script calls *)

Module Py.
Import Text.

Inductive exn : Type :=
| AttributeError            (* a method looked up on an object without it *)
| TypeError                 (* iterating a non-iterable, hashing a list or dict *)
| KeyError (key : string)   (* [d[key]] on a dict without [key] *)
| ValueError                (* [list.index] of an absent element *)
| OSError                   (* [open] / [read] *)
| YAMLError.                (* a malformed document in the stream *)

Inductive result (A : Type) : Type :=
| Ok (a : A)
| Raise (e : exn).
Arguments Ok {A} a.
Arguments Raise {A} e.

Definition bind {A B : Type} (r : result A) (k : A -> result B) : result B :=
  match r with
  | Ok a => k a
  | Raise e => Raise e
  end.

(** [try: body  except Exception: return handler] *)
Definition try_except {A : Type} (body : result A) (handler : A) : result A :=
  match body with
  | Ok a => Ok a
  | Raise _ => Ok handler
  end.

(** What [yaml.safe_load_all] builds: scalars, sequences, and mappings with
    scalar keys, items in insertion order. *)
Inductive scalar : Type :=
| SNull
| SBool (b : bool)
| SInt (n : Z)
| SStr (s : string).

#[local] Unset Elimination Schemes.
Inductive value : Type :=
| VScalar (c : scalar)
| VList (items : list value)
| VDict (entries : list (scalar * value)).
#[local] Set Elimination Schemes.

Definition VStr (s : string) : value := VScalar (SStr s).
Definition VNone : value := VScalar SNull.

(** [key == name] for a dict key and a string literal *)
Definition key_is (name : string) (key : scalar) : bool :=
  match key with
  | SStr s => String.eqb s name
  | _ => false
  end.

(** The value stored under the string key [name], if any. *)
Fixpoint lookup (name : string) (entries : list (scalar * value))
  : option value :=
  match entries with
  | [] => None
  | (key, v) :: rest => if key_is name key then Some v else lookup name rest
  end.

(** [obj.get(name, default)]: only a dict has the method. *)
Definition get (obj : value) (name : string) (default : value)
  : result value :=
  match obj with
  | VDict entries =>
      Ok (match lookup name entries with Some v => v | None => default end)
  | _ => Raise AttributeError
  end.

(** [v != "text"] *)
Definition ne_str (v : value) (text : string) : bool :=
  match v with
  | VScalar (SStr s) => negb (String.eqb s text)
  | _ => true
  end.

(** [bool(v)] *)
Definition truthy (v : value) : bool :=
  match v with
  | VScalar SNull => false
  | VScalar (SBool b) => b
  | VScalar (SInt n) => negb (Z.eqb n 0)
  | VScalar (SStr s) => negb (String.eqb s EmptyString)
  | VList items => match items with [] => false | _ => true end
  | VDict entries => match entries with [] => false | _ => true end
  end.

Fixpoint chars (s : string) : list value :=
  match s with
  | EmptyString => []
  | String c s' => VStr (String c EmptyString) :: chars s'
  end.

(** [for x in v]: the items of a list, the keys of a dict, the characters
    of a string; anything else is not iterable. *)
Definition iter (v : value) : result (list value) :=
  match v with
  | VList items => Ok items
  | VDict entries => Ok (map (fun kv => VScalar (fst kv)) entries)
  | VScalar (SStr s) => Ok (chars s)
  | VScalar _ => Raise TypeError
  end.

(** [a == b] on scalars: [bool] is a subclass of [int]. *)
Definition scalar_eqb (a b : scalar) : bool :=
  match a, b with
  | SNull, SNull => true
  | SStr s, SStr t => String.eqb s t
  | SBool x, SBool y => Bool.eqb x y
  | SInt n, SInt m => Z.eqb n m
  | SBool x, SInt n | SInt n, SBool x => Z.eqb n (if x then 1 else 0)
  | _, _ => false
  end.

(** *** [str()] and [repr()] *)

Definition squote : ascii := "039"%char.
Definition dquote : ascii := "034"%char.
Definition backslash : ascii := "092"%char.

Definition of_char (c : ascii) : string := String c EmptyString.

Definition hex_digit (n : nat) : ascii :=
  nth n (list_ascii_of_string "0123456789abcdef") "0"%char.

Definition hex_escape (c : ascii) : string :=
  let n := nat_of_ascii c in
  String backslash (String "x"%char
    (String (hex_digit (n / 16)) (of_char (hex_digit (n mod 16))))).

Fixpoint has_char (c : ascii) (s : string) : bool :=
  match s with
  | EmptyString => false
  | String d s' => Ascii.eqb c d || has_char c s'
  end.

Definition repr_char (quote c : ascii) : string :=
  let n := nat_of_ascii c in
  if Ascii.eqb c quote || Ascii.eqb c backslash then String backslash (of_char c)
  else if (n =? 9)%nat then String backslash "t"
  else if (n =? 10)%nat then String backslash "n"
  else if (n =? 13)%nat then String backslash "r"
  else if ((n <? 32) || (n =? 127))%nat then hex_escape c
  else if (n <? 127)%nat then of_char c
  else if ((n <=? 160) || (n =? 173))%nat then hex_escape c
  else of_char c.

Fixpoint repr_chars (quote : ascii) (s : string) : string :=
  match s with
  | EmptyString => EmptyString
  | String c s' => repr_char quote c ++ repr_chars quote s'
  end.

Definition repr_str (s : string) : string :=
  let quote := if has_char squote s && negb (has_char dquote s)
               then dquote else squote in
  String quote (repr_chars quote s ++ of_char quote).

Definition repr_scalar (c : scalar) : string :=
  match c with
  | SNull => "None"
  | SBool true => "True"
  | SBool false => "False"
  | SInt n => NilEmpty.string_of_int (Z.to_int n)
  | SStr s => repr_str s
  end.

Fixpoint repr (v : value) : string :=
  match v with
  | VScalar c => repr_scalar c
  | VList items => "[" ++ join ", " (map repr items) ++ "]"
  | VDict entries =>
      "{" ++ join ", "
               (map (fun kv => repr_scalar (fst kv) ++ ": " ++ repr (snd kv))
                    entries)
          ++ "}"
  end.

(** [str(v)], which is also what an f-string field [{v}] renders. *)
Definition str (v : value) : string :=
  match v with
  | VScalar (SStr s) => s
  | _ => repr v
  end.

End Py.

Module PyNotations.
Notation "x <- e ;; k" := (Py.bind e (fun x => k))
  (at level 61, e at next level, right associativity).
End PyNotations.

(* ================================================================= *)
(** ** class CompositionExtractor *)

Module CompositionExtractor.
Import Text Regex Py PyNotations.

(** *** Data *)

(** An entry of [special_resources].  The placeholder entry is built without
    a ["category"] key, hence the option. *)
Record resource : Type := {
  kind_api_version : string;
  kind : value;
  api_version : string;
  category : option string
}.

(** An entry of [extraction_results] / [self.extracted_data]; the fields are
    the six columns ["File Path"], ["Compositioin Kind/API Version"],
    ["ManangedResource (MR) Kind/API Version"], ["Kind"], ["API Version"],
    ["Category"]. *)
Record row : Type := {
  File_Path : string;
  Composition_Kind_API_Version : string;
  MR_Kind_API_Version : string;
  Kind : value;
  API_Version : string;
  Category : string
}.

(** The mutable attributes of [self], and the error lines sent to the log. *)
Record state : Type := {
  extracted_data : list row;
  unique_functions : list scalar;   (* a set: see [set_add] *)
  error_log : list (string * exn)
}.

Definition initial_state : state :=
  {| extracted_data := []; unique_functions := []; error_log := [] |}.

(** A method that may mutate [self] and may raise; the state it leaves is
    kept either way. *)
Definition M (A : Type) : Type := state -> result A * state.

Definition ret {A : Type} (a : A) : M A := fun st => (Ok a, st).

Definition lift {A : Type} (r : result A) : M A := fun st => (r, st).

Definition bindM {A B : Type} (m : M A) (k : A -> M B) : M B :=
  fun st => match m st with
            | (Ok a, st') => k a st'
            | (Raise e, st') => (Raise e, st')
            end.

Notation "x <~ e ;; k" := (bindM e (fun x => k))
  (at level 61, e at next level, right associativity).

(** *** _is_crossplane_or_upbound_apiversion *)

Definition _is_crossplane_or_upbound_apiversion (api_version : string) : bool :=
  contains ".crossplane.io/" api_version || contains ".upbound.io/" api_version.

(** *** _parse_templated_yaml *)

(** The class [[^\s\n{]]. *)
Definition value_char (c : ascii) : bool :=
  negb (isspace c) && negb (Ascii.eqb c newline) && negb (Ascii.eqb c "{"%char).

(** [r"apiVersion:\s*([^\s\n{]+)"] and [r"kind:\s*([^\s\n{]+)"] *)
Definition api_pattern : regex :=
  [Lit "apiVersion:"; Star isspace; GroupPlus value_char].
Definition kind_pattern : regex :=
  [Lit "kind:"; Star isspace; GroupPlus value_char].

Definition api_kind_dict (api_version kind : string) : value :=
  VDict [(SStr "apiVersion", VStr api_version); (SStr "kind", VStr kind)].

Definition _parse_templated_yaml (content : string) : result value :=
  try_except
    (let api_match := re_search api_pattern content in
     let kind_match := re_search kind_pattern content in
     match api_match, kind_match with
     | Some api_group, Some kind_group =>
         Ok (api_kind_dict (strip api_group) (strip kind_group))
     | _, _ => Ok (VDict [])
     end)
    (VDict []).

(** *** _extract_template_content *)

(** The local variables of the line loop. *)
Record scan : Type := {
  yaml_docs : list value;
  current_doc : list string;
  in_yaml : bool
}.

Definition resource_markers : list (string * string) :=
  [("apiVersion:", "kind:"); ("apiVersion:", "metadata:")].

(** [yaml_docs.append(self._parse_templated_yaml(" ".join(current_doc)))] *)
Definition append_parsed (docs : list value) (buffer : list string)
  : result (list value) :=
  doc <- _parse_templated_yaml (join " " buffer) ;;
  Ok (docs ++ [doc])%list.

Definition nonempty {A : Type} (l : list A) : bool :=
  match l with [] => false | _ => true end.

(** The inner [for start_marker, confirm_marker in resource_markers] with
    its [break]. *)
Fixpoint check_markers (markers : list (string * string))
    (lines : list string) (line : string) (st : scan) : result scan :=
  match markers with
  | [] => Ok st
  | (start_marker, confirm_marker) :: markers' =>
      if contains start_marker line then
        match list_index line lines with
        | None => Raise ValueError
        | Some i =>
            let next_lines := join "" (slice i (i + 3) lines) in
            if contains confirm_marker next_lines then
              docs <- (if in_yaml st && nonempty (current_doc st)
                       then append_parsed (yaml_docs st) (current_doc st)
                       else Ok (yaml_docs st)) ;;
              Ok {| yaml_docs := docs; current_doc := []; in_yaml := true |}
            else check_markers markers' lines line st
        end
      else check_markers markers' lines line st
  end.

(** One iteration of [for line in lines]. *)
Definition loop_body (lines : list string) (st : scan) (line : string)
  : result scan :=
  if startswith "#" (strip line) then Ok st
  else
    st1 <- check_markers resource_markers lines line st ;;
    let st2 :=
      if in_yaml st1
      then {| yaml_docs := yaml_docs st1;
              current_doc := (current_doc st1 ++ [line])%list;
              in_yaml := in_yaml st1 |}
      else st1 in
    if String.eqb (strip line) "---" && in_yaml st2 then
      docs <- (if nonempty (current_doc st2)
               then append_parsed (yaml_docs st2) (current_doc st2)
               else Ok (yaml_docs st2)) ;;
      Ok {| yaml_docs := docs; current_doc := []; in_yaml := false |}
    else Ok st2.

(** [for line in <todo>]: the loop over the remaining lines; [lines] is the
    whole list, which the body searches. *)
Fixpoint for_lines (lines todo : list string) (st : scan) : result scan :=
  match todo with
  | [] => Ok st
  | line :: todo' =>
      st' <- loop_body lines st line ;;
      for_lines lines todo' st'
  end.

Definition scan_start : scan :=
  {| yaml_docs := []; current_doc := []; in_yaml := false |}.

Definition _extract_template_content (template_str : value)
  : result (list value) :=
  try_except
    (match template_str with
     | VScalar (SStr text) =>
         let lines := split_lines text in
         st <- for_lines lines lines scan_start ;;
         docs <- (if nonempty (current_doc st)
                  then append_parsed (yaml_docs st) (current_doc st)
                  else Ok (yaml_docs st)) ;;
         Ok (filter truthy docs)
     | _ => Raise AttributeError       (* no [split] method *)
     end)
    [].

(** *** _get_api_category *)

Definition not_dot (c : ascii) : bool := negb (Ascii.eqb c "."%char).

(** [r"([^.]+)\.crossplane\.io"] and [r"([^.]+)\.upbound\.io"] *)
Definition crossplane_pattern : regex := [GroupPlus not_dot; Lit ".crossplane.io"].
Definition upbound_pattern : regex := [GroupPlus not_dot; Lit ".upbound.io"].

Definition _get_api_category (api_version : string) : string :=
  if String.eqb api_version "" then "other"
  else
    let crossplane_match := re_search crossplane_pattern api_version in
    let upbound_match := re_search upbound_pattern api_version in
    match crossplane_match, upbound_match with
    | Some g, _ => g
    | None, Some g => g
    | None, None => "other"
    end.

(** *** _extract_composition_details *)

(** What the nested [_recursive_search] appends to [special_resources] when
    it meets the item [key: v] of the mapping [entries]. *)
Definition found_at (entries : list (scalar * value)) (key : scalar) (v : value)
  : list resource :=
  match v with
  | VScalar (SStr api) =>
      if key_is "apiVersion" key && _is_crossplane_or_upbound_apiversion api
      then
        let k := match lookup "kind" entries with
                 | Some k => k
                 | None => VStr "N/A"
                 end in
        [{| kind_api_version := str k ++ "_" ++ api;
            kind := k;
            api_version := api;
            category := Some (_get_api_category api) |}]
      else []
  | _ => []
  end.

(** The resources [_recursive_search(obj)] appends, in order.  The [path]
    argument of the source only builds a string that is never read. *)
Fixpoint _recursive_search (obj : value) : list resource :=
  match obj with
  | VDict entries =>
      (fix items (todo : list (scalar * value)) : list resource :=
         match todo with
         | [] => []
         | (key, v) :: todo' =>
             (found_at entries key v ++ _recursive_search v ++ items todo')%list
         end) entries
  | VList elements =>
      (fix each (todo : list value) : list resource :=
         match todo with
         | [] => []
         | item :: todo' => (_recursive_search item ++ each todo')%list
         end) elements
  | VScalar _ => []
  end.

(** [func.get("functionRef", {}).get("name", "N/A") for func in pipeline] *)
Fixpoint function_names (pipeline : list value) : result (list value) :=
  match pipeline with
  | [] => Ok []
  | func :: pipeline' =>
      function_ref <- get func "functionRef" (VDict []) ;;
      name <- get function_ref "name" (VStr "N/A") ;;
      names <- function_names pipeline' ;;
      Ok (name :: names)
  end.

(** The [for step in pipeline_steps] loop: the resources found in the
    inline templates. *)
Fixpoint template_resources (pipeline_steps : list value)
  : result (list resource) :=
  match pipeline_steps with
  | [] => Ok []
  | step :: steps' =>
      input <- get step "input" (VDict []) ;;
      inline <- get input "inline" (VDict []) ;;
      template_content <- get inline "template" (VStr "") ;;
      found <- (if truthy template_content then
                  template_docs <- _extract_template_content template_content ;;
                  Ok (flat_map _recursive_search template_docs)
                else Ok []) ;;
      more <- template_resources steps' ;;
      Ok (found ++ more)%list
  end.

Definition placeholder : resource :=
  {| kind_api_version := "N/A"; kind := VStr "N/A"; api_version := "N/A";
     category := None |}.

Definition is_composition (api_version kind : value) : bool :=
  negb (ne_str api_version "apiextensions.crossplane.io/v1"
        || ne_str kind "Composition").

(** Everything between the Composition check and the update of
    [self.unique_functions]: the composite key, [function_refs] and
    [special_resources] (placeholder included).  Nothing of [self] is
    written here. *)
Definition collect (doc : value)
  : result (string * list value * list resource) :=
  spec <- get doc "spec" (VDict []) ;;
  composite_ref <- get spec "compositeTypeRef" (VDict []) ;;
  ref_kind <- get composite_ref "kind" (VStr "N/A") ;;
  ref_api <- get composite_ref "apiVersion" (VStr "N/A") ;;
  let composite_kind_api := str ref_kind ++ "_" ++ str ref_api in
  spec <- get doc "spec" (VDict []) ;;
  pipeline <- get spec "pipeline" (VList []) ;;
  funcs <- iter pipeline ;;
  function_refs <- function_names funcs ;;
  let in_document := _recursive_search doc in
  spec <- get doc "spec" (VDict []) ;;
  pipeline <- get spec "pipeline" (VList []) ;;
  pipeline_steps <- iter pipeline ;;
  in_templates <- template_resources pipeline_steps ;;
  let special_resources := (in_document ++ in_templates)%list in
  let special_resources :=
    if nonempty special_resources then special_resources else [placeholder] in
  Ok (composite_kind_api, function_refs, special_resources).

(** [s.add(x)] on a set kept as a list without equal elements. *)
Definition set_add (x : scalar) (s : list scalar) : list scalar :=
  if existsb (scalar_eqb x) s then s else (s ++ [x])%list.

(** [self.unique_functions.update(function_refs)]: the elements are added
    one by one; an unhashable one raises, and those before it stay. *)
Fixpoint update_functions (function_refs : list value) : M unit :=
  fun st =>
    match function_refs with
    | [] => (Ok tt, st)
    | VScalar name :: names =>
        update_functions names
          {| extracted_data := extracted_data st;
             unique_functions := set_add name (unique_functions st);
             error_log := error_log st |}
    | _ :: _ => (Raise TypeError, st)
    end.

(** [for resource in special_resources: extraction_results.append({...})] *)
Fixpoint emit_rows (file_path composite_kind_api : string)
    (special_resources : list resource) : result (list row) :=
  match special_resources with
  | [] => Ok []
  | resource :: resources' =>
      cat <- match category resource with
             | Some c => Ok c
             | None => Raise (KeyError "category")
             end ;;
      rows <- emit_rows file_path composite_kind_api resources' ;;
      Ok ({| File_Path := file_path;
             Composition_Kind_API_Version := composite_kind_api;
             MR_Kind_API_Version := kind_api_version resource;
             Kind := kind resource;
             API_Version := api_version resource;
             Category := cat |} :: rows)
  end.

(** The last two steps of [_extract_composition_details]: the update of
    [self.unique_functions], then the loop that builds the rows. *)
Definition record_and_emit (file_path composite_kind_api : string)
    (function_refs : list value) (special_resources : list resource)
  : M (list row) :=
  _ <~ update_functions function_refs ;;
  lift (emit_rows file_path composite_kind_api special_resources).

Definition _extract_composition_details (doc : value) (file_path : string)
  : M (list row) :=
  doc_api <~ lift (get doc "apiVersion" VNone) ;;
  doc_kind <~ lift (get doc "kind" VNone) ;;
  if negb (is_composition doc_api doc_kind) then ret []
  else
    collected <~ lift (collect doc) ;;
    let '(composite_kind_api, function_refs, special_resources) := collected in
    record_and_emit file_path composite_kind_api function_refs special_resources.

(** *** extract_compositions *)

(** A directory entry: its path and what [open]/[read] and
    [yaml.safe_load_all] make of it.  The loader yields the documents one
    at a time; when [then_malformed] is set it raises after the last of
    them, on reaching text it cannot parse. *)
Inductive content : Type :=
| Unreadable
| Readable (docs : list value) (then_malformed : bool).

Definition entry : Type := (string * content)%type.

(** [self.extracted_data.extend(results)] *)
Definition extend (results : list row) : M unit :=
  fun st => (Ok tt,
             {| extracted_data := (extracted_data st ++ results)%list;
                unique_functions := unique_functions st;
                error_log := error_log st |}).

(** The body of [for doc in yaml_docs]. *)
Definition one_document (doc : value) (file_path : string) : M unit :=
  if truthy doc then
    results <~ _extract_composition_details doc file_path ;;
    extend results
  else ret tt.

Fixpoint for_documents (docs : list value) (then_malformed : bool)
    (file_path : string) : M unit :=
  match docs with
  | [] => if then_malformed then lift (Raise YAMLError) else ret tt
  | doc :: docs' =>
      _ <~ one_document doc file_path ;;
      for_documents docs' then_malformed file_path
  end.

(** What stands inside the [try] of [for file_path in yaml_files]. *)
Definition attempt (file : entry) : M unit :=
  match snd file with
  | Unreadable => lift (Raise OSError)
  | Readable docs then_malformed => for_documents docs then_malformed (fst file)
  end.

(** [logger.error(f"Error processing {file_path}: {str(e)}")] *)
Definition logged (st : state) (file_path : string) (e : exn) : state :=
  {| extracted_data := extracted_data st;
     unique_functions := unique_functions st;
     error_log := (error_log st ++ [(file_path, e)])%list |}.

(** The body of [for file_path in yaml_files], with its [try]/[except]. *)
Definition process_file (st : state) (file : entry) : state :=
  match attempt file st with
  | (Ok _, st') => st'
  | (Raise e, st') => logged st' (fst file) e
  end.

Definition is_yaml_file (file : entry) : bool :=
  endswith ".yaml" (fst file) || endswith ".yml" (fst file).

(** [found] is what [self.folder_path.rglob("*")] lists. *)
Definition extract_compositions (found : list entry) (st : state) : state :=
  let yaml_files := filter is_yaml_file found in
  fold_left process_file yaml_files st.

(** *** _get_mr_statistics *)

(** A row of the statistics frame. *)
Record statistic : Type := {
  Kind_API_Version : string;
  Stat_Kind : scalar;
  Stat_API_Version : string;
  Stat_Category : string;
  Total_Occurrences : nat;
  Found_in_N_Files : nat;
  Used_by_N_Compositions : nat
}.

(** The grouping key of a row: the four columns passed to [groupby]. *)
Definition group_key : Type := (string * scalar * string * string)%type.

Definition group_key_eqb (a b : group_key) : bool :=
  let '(a1, a2, a3, a4) := a in
  let '(b1, b2, b3, b4) := b in
  String.eqb a1 b1 && scalar_eqb a2 b2 && String.eqb a3 b3 && String.eqb a4 b4.

(** How [DataFrame.groupby] (with its defaults, [dropna=True]) treats the
    key of a row: a row with a missing ([None]) key value belongs to no
    group; a key value that cannot be hashed (a list, a dict) is an error.
    Of the four columns only ["Kind"] can hold something else than a
    string. *)
Definition key_of (r : row) : result (option group_key) :=
  match Kind r with
  | VScalar SNull => Ok None
  | VScalar k => Ok (Some (MR_Kind_API_Version r, k, API_Version r, Category r))
  | _ => Raise TypeError
  end.

Definition groups : Type := list (group_key * list row).

Fixpoint add_to_group (k : group_key) (r : row) (gs : groups) : groups :=
  match gs with
  | [] => [(k, [r])]
  | (k', members) :: gs' =>
      if group_key_eqb k k' then (k', (members ++ [r])%list) :: gs'
      else (k', members) :: add_to_group k r gs'
  end.

Fixpoint groupby (data : list row) (gs : groups) : result groups :=
  match data with
  | [] => Ok gs
  | r :: data' =>
      k <- key_of r ;;
      groupby data' (match k with
                     | Some k => add_to_group k r gs
                     | None => gs
                     end)
  end.

(** [len(x.unique())] on a column of strings *)
Definition nunique (column : list string) : nat :=
  List.length (nodup string_dec column).

(** [.agg({"File Path": ["count", nunique], "Compositioin ...": nunique})]
    on one group; the file paths are strings, so ["count"] counts them
    all. *)
Definition aggregate (g : group_key * list row) : statistic :=
  let '((mr, k, api, cat), members) := g in
  {| Kind_API_Version := mr;
     Stat_Kind := k;
     Stat_API_Version := api;
     Stat_Category := cat;
     Total_Occurrences := List.length (map File_Path members);
     Found_in_N_Files := nunique (map File_Path members);
     Used_by_N_Compositions :=
       nunique (map Composition_Kind_API_Version members) |}.

(** [sort_values("Total Occurrences", ascending=False)].  pandas leaves the
    order of rows with equal counts open; here they keep their order. *)
Fixpoint insert_desc (s : statistic) (sorted : list statistic) : list statistic :=
  match sorted with
  | [] => [s]
  | t :: sorted' =>
      if (Total_Occurrences t <=? Total_Occurrences s)%nat then s :: sorted
      else t :: insert_desc s sorted'
  end.

Definition sort_values (stats : list statistic) : list statistic :=
  fold_right insert_desc [] stats.

Definition _get_mr_statistics (st : state) : result (list statistic) :=
  if negb (nonempty (extracted_data st)) then Ok []
  else
    gs <- groupby (extracted_data st) [] ;;
    Ok (sort_values (map aggregate gs)).



(** *** _get_file_mapping *)

(** A row of the file-mapping frame; the fields are the columns
    ["Kind/API Version"], ["Total Files"], ["Total Occurrences"],
    ["File Locations"]. *)
Record file_mapping_entry : Type := {
  Mapping_Kind_API_Version : string;
  Total_Files : nat;
  Mapping_Total_Occurrences : nat;
  File_Locations : string
}.

(** The tally behind [value_counts()]: each distinct value with the number
    of times it occurs, in order of first occurrence. *)
Fixpoint count_value (x : string) (counts : list (string * nat))
  : list (string * nat) :=
  match counts with
  | [] => [(x, 1)]
  | (y, n) :: counts' =>
      if String.eqb x y then (y, S n) :: counts'
      else (y, n) :: count_value x counts'
  end.

Definition tally (column : list string) : list (string * nat) :=
  fold_left (fun counts x => count_value x counts) column [].

Fixpoint insert_count (c : string * nat) (sorted : list (string * nat))
  : list (string * nat) :=
  match sorted with
  | [] => [c]
  | d :: sorted' =>
      if (snd d <=? snd c)%nat then c :: sorted
      else d :: insert_count c sorted'
  end.

(** [series.value_counts()]: the counts, largest first.  pandas leaves the
    order of equal counts open; here they keep their order. *)
Definition value_counts (column : list string) : list (string * nat) :=
  fold_right insert_count [] (tally column).

(** [str(n)] for a count *)
Definition str_nat (n : nat) : string :=
  NilEmpty.string_of_uint (Nat.to_uint n).

(** [f"{path} ({count} occurrences)"] *)
Definition location_line (c : string * nat) : string :=
  fst c ++ " (" ++ str_nat (snd c) ++ " occurrences)".

(** The groups of [df.groupby("ManangedResource (MR) Kind/API Version")]:
    the key is always a string, so no row is left out. *)
Fixpoint add_to_mr_group (key : string) (r : row)
    (gs : list (string * list row)) : list (string * list row) :=
  match gs with
  | [] => [(key, [r])]
  | (key', members) :: gs' =>
      if String.eqb key key' then (key', (members ++ [r])%list) :: gs'
      else (key', members) :: add_to_mr_group key r gs'
  end.

Definition mr_groups (data : list row) : list (string * list row) :=
  fold_left (fun gs r => add_to_mr_group (MR_Kind_API_Version r) r gs) data [].

(** [groupby] hands the groups over in the order of their keys. *)
Fixpoint insert_group (g : string * list row)
    (sorted : list (string * list row)) : list (string * list row) :=
  match sorted with
  | [] => [g]
  | h :: sorted' =>
      if String.leb (fst g) (fst h) then g :: sorted
      else h :: insert_group g sorted'
  end.

Definition sort_groups (gs : list (string * list row))
  : list (string * list row) :=
  fold_right insert_group [] gs.

(** The body of [for mr, group in df.groupby(...)]. *)
Definition mapping_entry (g : string * list row) : file_mapping_entry :=
  let (mr, group) := g in
  let file_counts := value_counts (map File_Path group) in
  let file_info :=
    join (String newline EmptyString) (map location_line file_counts) in
  {| Mapping_Kind_API_Version := mr;
     Total_Files := List.length file_counts;
     Mapping_Total_Occurrences := list_sum (map snd file_counts);
     File_Locations := file_info |}.

Definition _get_file_mapping (st : state) : list file_mapping_entry :=
  if negb (nonempty (extracted_data st)) then []
  else map mapping_entry (sort_groups (mr_groups (extracted_data st))).

End CompositionExtractor.

(* ================================================================= *)
(** ** Vocabulary of the specification *)

Module Spec.
Import Text Regex Py CompositionExtractor.

(** [head_outside cls s]: [s] is empty or starts with a character outside
    the class: a run of [cls] characters cannot be extended into [s]. *)
Definition head_outside (cls : ascii -> bool) (s : string) : Prop :=
  match s with
  | EmptyString => True
  | String c _ => cls c = false
  end.

(** [value_at key s v]: [s] starts with [key], then white space, then the
    scalar [v]: a non-empty run without white space or an opening brace,
    taken as far as it goes. *)
Definition value_at (key s v : string) : Prop :=
  exists ws post,
    s = key ++ ws ++ v ++ post /\
    forallb_str isspace ws = true /\
    v <> EmptyString /\
    forallb_str value_char v = true /\
    head_outside value_char post.

(** [label_at suffix s g]: [s] starts with the non-empty, dot-free label
    [g], immediately followed by [suffix]. *)
Definition label_at (suffix s g : string) : Prop :=
  exists post,
    s = g ++ suffix ++ post /\
    g <> EmptyString /\
    forallb_str not_dot g = true.

(** [first_in P text x]: [P rest x] holds for a suffix [rest] of [text],
    and for no longer suffix does [P] hold of anything: [x] is what [P]
    finds at the leftmost position where it finds something. *)
Definition first_in (P : string -> string -> Prop) (text x : string) : Prop :=
  exists pre rest,
    text = pre ++ rest /\
    P rest x /\
    forall pre1 pre2 y,
      pre = pre1 ++ pre2 -> pre2 <> EmptyString -> ~ P (pre2 ++ rest) y.

(** [nowhere P text]: [P] holds at no position of [text]. *)
Definition nowhere (P : string -> string -> Prop) (text : string) : Prop :=
  forall pre rest x, text = pre ++ rest -> ~ P rest x.


(** [reachable root v]: [v] is [root] or sits inside it, at any depth,
    through sequence items and mapping values. *)
Inductive reachable : value -> value -> Prop :=
| reach_here (v : value) : reachable v v
| reach_item (items : list value) (x v : value) :
    In x items -> reachable x v -> reachable (VList items) v
| reach_entry (entries : list (scalar * value)) (k : scalar) (x v : value) :
    In (k, x) entries -> reachable x v -> reachable (VDict entries) v.

(** [obj.get("kind", "N/A")] on the items of a mapping *)
Definition sibling_kind (entries : list (scalar * value)) : value :=
  match lookup "kind" entries with
  | Some k => k
  | None => VStr "N/A"
  end.




(** The check at the top of [_extract_composition_details] lets [doc]
    through. *)
Definition accepted (doc : value) : bool :=
  match get doc "apiVersion" VNone, get doc "kind" VNone with
  | Ok doc_api, Ok doc_kind => is_composition doc_api doc_kind
  | _, _ => false
  end.

(** [name in self.unique_functions] *)
Definition in_catalog (name : value) (st : state) : bool :=
  match name with
  | VScalar c => existsb (scalar_eqb c) (unique_functions st)
  | _ => false
  end.


(** A line the extractor skips: its trimmed content starts with [#]. *)
Definition is_comment (line : string) : bool := startswith "#" (strip line).



(** The line at position [i] and the two lines after it, put together. *)
Definition window_at (lines : list string) (i : nat) : string :=
  join "" (slice i (i + 3) lines).

(** The trigger as the specification words it: the line at position [i]
    holds ["apiVersion:"], and the window that starts at position [i]
    holds ["kind:"] or ["metadata:"]. *)
Definition starts_document_at (lines : list string) (i : nat) : bool :=
  contains "apiVersion:" (nth i lines "")
  && (contains "kind:" (window_at lines i)
      || contains "metadata:" (window_at lines i)).




(** *** Auxiliary definitions of the proofs *)

(** The loop over the items of a mapping, as it appears when
    [_recursive_search] is unfolded on a [VDict]. *)
Definition search_items (entries : list (scalar * value)) :=
  fix items (todo : list (scalar * value)) : list resource :=
    match todo with
    | [] => []
    | (key, v) :: todo' =>
        (found_at entries key v ++ _recursive_search v ++ items todo')%list
    end.

Definition search_each :=
  fix each (todo : list value) : list resource :=
    match todo with
    | [] => []
    | item :: todo' => (_recursive_search item ++ each todo')%list
    end.



(** What the parser makes of a buffer: it never raises. *)
Definition parsed (content : string) : value :=
  match re_search api_pattern content, re_search kind_pattern content with
  | Some api_group, Some kind_group =>
      api_kind_dict (strip api_group) (strip kind_group)
  | _, _ => VDict []
  end.


(** *** Vocabulary of the further properties *)

(** A scalar as the fragment parser captures it: not empty, without white
    space and without an opening brace. *)
Definition clean_value (v : string) : Prop :=
  v <> EmptyString /\ forallb_str value_char v = true.

(** A line that can open a document: not a comment, and it holds
    ["apiVersion:"]. *)
Definition is_marker_line (line : string) : bool :=
  negb (is_comment line) && contains "apiVersion:" line.

(** What the line loop keeps true of its variables: the documents come out
    of the parser, the flag is set exactly when the buffer holds lines, and
    the buffer holds no comment line. *)
Definition scan_inv (st : scan) : Prop :=
  Forall (fun doc => exists content, doc = parsed content) (yaml_docs st)
  /\ in_yaml st = nonempty (current_doc st)
  /\ Forall (fun line => is_comment line = false) (current_doc st).

(** The documents flushed so far, and one more when a document is open. *)
Definition scan_measure (st : scan) : nat :=
  List.length (yaml_docs st) + (if in_yaml st then 1 else 0).

Definition is_mapping (v : value) : bool :=
  match v with
  | VDict _ => true
  | _ => false
  end.

(** A resource as the scanner builds it from an apiVersion that passes the
    filter. *)
Definition scanned_resource (r : resource) : Prop :=
  _is_crossplane_or_upbound_apiversion (api_version r) = true
  /\ category r = Some (_get_api_category (api_version r))
  /\ kind_api_version r = str (kind r) ++ "_" ++ api_version r.

(** The row [emit_rows] builds from a resource that has a category. *)
Definition row_of (file_path composite_kind_api : string) (r : resource)
    (cat : string) : row :=
  {| File_Path := file_path;
     Composition_Kind_API_Version := composite_kind_api;
     MR_Kind_API_Version := kind_api_version r;
     Kind := kind r;
     API_Version := api_version r;
     Category := cat |}.

(** A pipeline step [function_names] gets a name from: a mapping whose
    ["functionRef"], when it has one, is a mapping. *)
Definition step_has_name (step : value) : bool :=
  match step with
  | VDict entries =>
      match lookup "functionRef" entries with
      | Some ref => is_mapping ref
      | None => true
      end
  | _ => false
  end.

(** [func.get("functionRef", {}).get("name", "N/A")] for such a step *)
Definition step_name (step : value) : value :=
  match step with
  | VDict entries =>
      match lookup "functionRef" entries with
      | Some (VDict ref) =>
          match lookup "name" ref with
          | Some name => name
          | None => VStr "N/A"
          end
      | _ => VStr "N/A"
      end
  | _ => VStr "N/A"
  end.


Definition kind_hashable (r : row) : bool :=
  match Kind r with
  | VScalar _ => true
  | _ => false
  end.

(** The rows held by the groups of the file mapping. *)
Definition mr_members_total (gs : list (string * list row)) : nat :=
  list_sum (map (fun g => List.length (snd g)) gs).

Definition counts_total (counts : list (string * nat)) : nat :=
  list_sum (map snd counts).


(** The number of lines that can open a document. *)
Definition marker_count (lines : list string) : nat :=
  List.length (filter is_marker_line lines).

Definition is_text (v : value) : bool :=
  match v with
  | VScalar (SStr _) => true
  | _ => false
  end.

(** The resource the scanner builds from a parsed fragment. *)
Definition fragment_resource (api kind : string) : resource :=
  {| kind_api_version := kind ++ "_" ++ api;
     kind := VStr kind;
     api_version := api;
     category := Some (_get_api_category api) |}.


(** [grown_from files st st']: [st'] is [st] with rows appended, each from
    one of [files], with at most one log line per file appended, each about
    one of [files], and with no function name removed. *)
Definition grown_from (files : list entry) (st st' : state) : Prop :=
  (exists kept,
      extracted_data st' = (extracted_data st ++ kept)%list /\
      forall r, In r kept -> exists f, In f files /\ fst f = File_Path r)
  /\ (exists log,
        error_log st' = (error_log st ++ log)%list /\
        List.length log <= List.length files /\
        forall e, In e log -> exists f, In f files /\ fst f = fst e)
  /\ (forall name, in_catalog name st = true -> in_catalog name st' = true).

(** Counts from the largest to the smallest. *)
Fixpoint descending (counts : list nat) : bool :=
  match counts with
  | a :: (b :: _) as rest => (b <=? a)%nat && descending rest
  | _ => true
  end.






(** A value a Python set can hold. *)
Definition is_hashable (v : value) : bool :=
  match v with
  | VScalar _ => true
  | _ => false
  end.

(** A document the run passes over: a falsy one, or a mapping that is not
    a Composition. *)
Definition inert_document (doc : value) : bool :=
  negb (truthy doc) || (is_mapping doc && negb (accepted doc)).

(** An entry the run passes over: one that is not a YAML file, or a
    readable, well-formed file of inert documents. *)
Definition inert_entry (file : entry) : bool :=
  negb (is_yaml_file file)
  || match snd file with
     | Readable docs false => forallb inert_document docs
     | _ => false
     end.

End Spec.

(* ================================================================= *)
(** ** Documents and texts used as examples *)

Module Examples.
Import Text Py CompositionExtractor.

Definition mapping (items : list (string * value)) : value :=
  VDict (map (fun kv => (SStr (fst kv), snd kv)) items).

(** A managed resource nested under [spec.forProvider.manifest]. *)
Definition nested_instance : value :=
  mapping
    [("apiVersion", VStr "kubernetes.crossplane.io/v1alpha2");
     ("kind", VStr "Object");
     ("spec", mapping
        [("forProvider", mapping
           [("manifest", mapping
              [("apiVersion", VStr "ec2.aws.upbound.io/v1beta1");
               ("kind", VStr "Instance")])])])].





Definition lines_of (lines : list string) : string :=
  join (String newline EmptyString) lines.

(** The scenario of the specification: one pipeline step with a function
    and an inline template whose resource is of neither domain; a second
    step without [functionRef]. *)
Definition patch_and_transform : value :=
  mapping
    [("apiVersion", VStr "apiextensions.crossplane.io/v1");
     ("kind", VStr "Composition");
     ("spec", mapping
        [("compositeTypeRef", mapping
           [("apiVersion", VStr "example.org/v1"); ("kind", VStr "XFoo")]);
         ("pipeline", VList
           [mapping
              [("step", VStr "render");
               ("functionRef", mapping
                  [("name", VStr "function-patch-and-transform")]);
               ("input", mapping
                  [("inline", mapping
                     [("template", VStr (lines_of
                         ["apiVersion: example.org/v1"; "kind: Foo"]))])])];
            mapping [("step", VStr "ready")]])])].

(** The row the extractor builds for [patch_and_transform] itself. *)
Definition patch_and_transform_row (file_path : string) : row :=
  {| File_Path := file_path;
     Composition_Kind_API_Version := "XFoo_example.org/v1";
     MR_Kind_API_Version := "Composition_apiextensions.crossplane.io/v1";
     Kind := VStr "Composition";
     API_Version := "apiextensions.crossplane.io/v1";
     Category := "apiextensions" |}.

(** A run over three files; the second holds a good document, then a
    document that is a bare sequence, then another good one. *)
Definition three_files : list entry :=
  [("a.yaml", Readable [patch_and_transform] false);
   ("b.yaml", Readable [patch_and_transform;
                        VList [VStr "not"; VStr "a mapping"];
                        patch_and_transform] false);
   ("c.yml", Readable [patch_and_transform] false)].


(** A template in which the line that opens the resource repeats a line
    met before. *)
Definition repeated_start : string :=
  lines_of ["apiVersion: v1"; "a: 1"; "b: 2"; "c: 3";
            "apiVersion: v1"; "kind: Foo"].


Definition two_fragments : string :=
  lines_of ["apiVersion: s3.aws.upbound.io/v1beta1"; "# the bucket";
            "kind: Bucket"; "metadata:"; "  name: {{ .name }}"; "---";
            "apiVersion: v1"; "kind: ConfigMap"].

Definition commented : list string :=
  ["apiVersion: v1"; "# apiVersion: fake/v1"; "kind: Foo"].


(** A Composition that is nothing but its two identifying keys. *)
Definition bare_composition : value :=
  mapping
    [("apiVersion", VStr "apiextensions.crossplane.io/v1");
     ("kind", VStr "Composition")].

(** A Composition whose [spec:] is left empty. *)
Definition composition_with_empty_spec : value :=
  mapping
    [("apiVersion", VStr "apiextensions.crossplane.io/v1");
     ("kind", VStr "Composition");
     ("spec", VNone)].

(** A pipeline with one step, whose inline template is [two_fragments]. *)
Definition template_pipeline : list value :=
  [mapping
     [("step", VStr "render");
      ("input", mapping
         [("inline", mapping [("template", VStr two_fragments)])])]].


(** A Composition that holds [nested_instance] twice, and the run over the
    one file that holds it. *)
Definition twice_nested : value :=
  mapping
    [("apiVersion", VStr "apiextensions.crossplane.io/v1");
     ("kind", VStr "Composition");
     ("a", nested_instance);
     ("b", nested_instance)].

Definition twice_nested_run : state :=
  extract_compositions [("c.yaml", Readable [twice_nested] false)]
                       initial_state.

(** The statistics of a state, when they can be built. *)
Definition statistics_of (st : state) : list statistic :=
  match _get_mr_statistics st with
  | Ok stats => stats
  | Raise _ => []
  end.

End Examples.

(* ================================================================= *)
(** ** Properties *)

(** *** Facts about the text primitives *)

Module TextFacts.
Import Text.


Lemma append_assoc (a b c : string) : (a ++ b) ++ c = a ++ (b ++ c).
Proof. induction a as [|x a IH]; simpl; [reflexivity | now rewrite IH]. Qed.

Lemma strip_prefix_Some (p s r : string) :
  strip_prefix p s = Some r <-> s = p ++ r.
Proof.
  revert s; induction p as [|a p IH]; intros s; simpl.
  - split; intros H; [now inversion H | now subst].
  - destruct s as [|b s].
    + split; intros H; discriminate.
    + destruct (Ascii.eqb a b) eqn:E.
      * apply Ascii.eqb_eq in E; subst b. rewrite IH.
        split; intros H; [now subst | now inversion H].
      * apply Ascii.eqb_neq in E.
        split; intros H; [discriminate | inversion H; congruence].
Qed.

Lemma strip_prefix_app (p r : string) : strip_prefix p (p ++ r) = Some r.
Proof. now apply strip_prefix_Some. Qed.

Lemma span_spec (cls : ascii -> bool) (s a b : string) :
  span cls s = (a, b) ->
  s = a ++ b /\ forallb_str cls a = true /\ Spec.head_outside cls b.
Proof.
  revert a b; induction s as [|c s IH]; intros a b; simpl.
  - intros H; inversion H; subst; simpl; auto.
  - destruct (cls c) eqn:E.
    + destruct (span cls s) as [a' b'] eqn:Es.
      intros H; inversion H; subst; clear H.
      destruct (IH _ _ eq_refl) as (-> & Ha & Hb).
      simpl; rewrite E, Ha; auto.
    + intros H; inversion H; subst; simpl; auto.
Qed.

Lemma span_app (cls : ascii -> bool) (a b : string) :
  forallb_str cls a = true -> Spec.head_outside cls b ->
  span cls (a ++ b) = (a, b).
Proof.
  induction a as [|c a IH]; simpl; intros Ha Hb.
  - destruct b as [|c b]; simpl in *; [reflexivity | now rewrite Hb].
  - apply andb_true_iff in Ha as [Hc Ha]. rewrite Hc, IH; auto.
Qed.

Lemma drop_app (a b : string) : drop (String.length a) (a ++ b) = b.
Proof. induction a as [|c a IH]; simpl; [now destruct b | exact IH]. Qed.

Lemma take_app (a b : string) : take (String.length a) (a ++ b) = a.
Proof. induction a as [|c a IH]; simpl; [now destruct b | now rewrite IH]. Qed.

(** Strictly inside a run of [cls] characters, what is left still starts
    with one. *)
Lemma drop_inside (cls : ascii -> bool) (a b : string) (k : nat) :
  forallb_str cls a = true -> k < String.length a ->
  exists c t, drop k (a ++ b) = String c t /\ cls c = true.
Proof.
  revert k; induction a as [|c a IH]; simpl; intros k Ha Hk; [lia|].
  apply andb_true_iff in Ha as [Hc Ha].
  destruct k as [|k]; [now exists c, (a ++ b) |].
  apply IH; [assumption | lia].
Qed.

Lemma lstrip_id (s : string) :
  forallb_str (fun c => negb (isspace c)) s = true -> lstrip s = s.
Proof.
  destruct s as [|c s]; simpl; [reflexivity|].
  intros H; apply andb_true_iff in H as [Hc _].
  now apply negb_true_iff in Hc; rewrite Hc.
Qed.

Lemma rstrip_id (s : string) :
  forallb_str (fun c => negb (isspace c)) s = true -> rstrip s = s.
Proof.
  induction s as [|c s IH]; simpl; [reflexivity|].
  intros H; apply andb_true_iff in H as [Hc Hs].
  rewrite (IH Hs). apply negb_true_iff in Hc; rewrite Hc.
  now destruct s.
Qed.

Lemma forallb_str_impl (p q : ascii -> bool) (s : string) :
  (forall c, p c = true -> q c = true) ->
  forallb_str p s = true -> forallb_str q s = true.
Proof.
  intros Hpq; induction s as [|c s IH]; simpl; [reflexivity|].
  intros H; apply andb_true_iff in H as [Hc Hs].
  now rewrite (Hpq _ Hc), IH.
Qed.

Lemma strip_id (s : string) :
  forallb_str (fun c => negb (isspace c)) s = true -> strip s = s.
Proof. intros H; unfold strip; now rewrite lstrip_id, rstrip_id. Qed.

End TextFacts.

(** *** Facts about the regular expressions *)

Module RegexFacts.
Import Text Regex TextFacts.

Lemma try_down_all_None {A : Type} (f : nat -> option A) (lo k : nat) :
  (forall j, j <= k -> f j = None) -> try_down f lo k = None.
Proof.
  induction k as [|k IH]; intros H; simpl.
  - destruct (0 <? lo)%nat; [reflexivity | now rewrite (H 0)].
  - destruct (S k <? lo)%nat; [reflexivity|].
    rewrite (H (S k)) by lia. apply IH; intros j Hj; apply H; lia.
Qed.

(** When no shorter repetition can succeed, only the longest one counts. *)
Lemma try_down_longest {A : Type} (f : nat -> option A) (lo k : nat) :
  (forall j, j < k -> f j = None) ->
  try_down f lo k = if (k <? lo)%nat then None else f k.
Proof.
  intros H; destruct k as [|k]; simpl.
  - destruct (0 <? lo)%nat; [reflexivity | now destruct (f 0)].
  - destruct (S k <? lo)%nat; [reflexivity|].
    destruct (f (S k)); [reflexivity|].
    apply try_down_all_None; intros j Hj; apply H; lia.
Qed.

Lemma try_down_first {A : Type} (f : nat -> option A) (lo k : nat) (r : A) :
  lo <= k -> f k = Some r -> try_down f lo k = Some r.
Proof.
  intros Hk Hf. destruct k; simpl.
  - replace (0 <? lo)%nat with false by (symmetry; apply Nat.ltb_ge; lia).
    now rewrite Hf.
  - replace (S k <? lo)%nat with false by (symmetry; apply Nat.ltb_ge; lia).
    now rewrite Hf.
Qed.

(** A final captured [+]: the whole run, when there is one. *)
Lemma match_group_last (cls : ascii -> bool) (s g0 : string) :
  match_here [GroupPlus cls] s g0 =
  match fst (span cls s) with
  | EmptyString => None
  | a => Some a
  end.
Proof.
  cbn [match_here]. destruct (span cls s) as [a b] eqn:E.
  destruct (span_spec _ _ _ _ E) as (-> & _ & _). cbn [fst].
  destruct a as [|c a]; [reflexivity|].
  apply try_down_first; [simpl; lia|].
  now rewrite take_app.
Qed.

(** White space, then the captured run: giving white space back never
    helps, because the run cannot start with it. *)
Lemma match_star_group (sp vc : ascii -> bool) (s g0 : string) :
  (forall c, sp c = true -> vc c = false) ->
  match_here [Star sp; GroupPlus vc] s g0 =
  match_here [GroupPlus vc] (snd (span sp s)) g0.
Proof.
  intros Hdisj. cbn [match_here].
  change (fun k : nat =>
            try_down (fun k0 => Some (take k0 (drop k s))) 1
              (String.length (fst (span vc (drop k s)))))
    with (fun k : nat => match_here [GroupPlus vc] (drop k s) g0).
  change (try_down (fun k0 => Some (take k0 (snd (span sp s)))) 1
            (String.length (fst (span vc (snd (span sp s))))))
    with (match_here [GroupPlus vc] (snd (span sp s)) g0).
  destruct (span sp s) as [ws r] eqn:E.
  destruct (span_spec _ _ _ _ E) as (-> & Hws & _). cbn [fst snd].
  rewrite try_down_longest.
  - cbn [Nat.ltb Nat.leb]. now rewrite drop_app.
  - intros j Hj.
    destruct (drop_inside sp ws r j Hws Hj) as (c & t & -> & Hc).
    rewrite match_group_last. simpl. now rewrite (Hdisj c Hc).
Qed.

(** The captured run, then literal text that starts with a character the
    run cannot hold: the run is taken whole or the match fails. *)
Lemma match_group_lit (cls : ascii -> bool) (d : ascii) (lit s g0 : string) :
  cls d = false ->
  match_here [GroupPlus cls; Lit (String d lit)] s g0 =
  let (a, b) := span cls s in
  match a, strip_prefix (String d lit) b with
  | String _ _, Some _ => Some a
  | _, _ => None
  end.
Proof.
  intros Hd. cbn [match_here].
  destruct (span cls s) as [a b] eqn:E.
  destruct (span_spec _ _ _ _ E) as (-> & Ha & _). cbn [fst].
  rewrite try_down_longest.
  - cbv beta. rewrite drop_app, take_app.
    destruct a as [|c a]; [reflexivity|].
    cbn [String.length Nat.ltb Nat.leb].
    now destruct (strip_prefix _ b).
  - intros j Hj.
    destruct (drop_inside cls a b j Ha Hj) as (c & t & -> & Hc).
    simpl. destruct (Ascii.eqb d c) eqn:Edc; [|reflexivity].
    apply Ascii.eqb_eq in Edc; congruence.
Qed.

Lemma value_char_not_space (c : ascii) :
  isspace c = true -> CompositionExtractor.value_char c = false.
Proof. intros H; unfold CompositionExtractor.value_char; now rewrite H. Qed.

Lemma nonempty_head (cls : ascii -> bool) (v post : string) :
  v <> EmptyString -> forallb_str cls v = true ->
  forall sp : ascii -> bool, (forall c, sp c = true -> cls c = false) ->
  Spec.head_outside sp (v ++ post).
Proof.
  intros Hv Hall sp Hdisj. destruct v as [|c v]; [congruence|].
  simpl in *. apply andb_true_iff in Hall as [Hc _].
  destruct (sp c) eqn:E; [|reflexivity].
  rewrite (Hdisj c E) in Hc; discriminate.
Qed.

(** The two value patterns find exactly [Spec.value_at]. *)
Lemma value_pattern_spec (key s g0 v : string) :
  match_here [Lit key; Star isspace; GroupPlus CompositionExtractor.value_char]
             s g0 = Some v
  <-> Spec.value_at key s v.
Proof.
  cbn [match_here].
  change (match strip_prefix key s with
          | Some s' => match_here [Star isspace; GroupPlus CompositionExtractor.value_char] s' g0
          | None => None
          end = Some v <-> Spec.value_at key s v).
  split.
  - destruct (strip_prefix key s) as [s1|] eqn:E1; [|discriminate].
    apply strip_prefix_Some in E1; subst s.
    rewrite (match_star_group _ _ _ _ value_char_not_space), match_group_last.
    destruct (span isspace s1) as [ws r] eqn:E2.
    destruct (span_spec _ _ _ _ E2) as (-> & Hws & _). cbn [snd].
    destruct (span CompositionExtractor.value_char r) as [a post] eqn:E3.
    destruct (span_spec _ _ _ _ E3) as (-> & Ha & Hpost). cbn [fst].
    destruct a as [|c a]; [discriminate|]. intros H; inversion H; subst v.
    exists ws, post. repeat split; auto. discriminate.
  - intros (ws & post & -> & Hws & Hv & Hall & Hpost).
    rewrite strip_prefix_app.
    rewrite (match_star_group _ _ _ _ value_char_not_space), match_group_last.
    rewrite (span_app isspace ws (v ++ post) Hws
               (nonempty_head _ v post Hv Hall isspace value_char_not_space)).
    cbn [snd]. rewrite (span_app _ v post Hall Hpost). cbn [fst].
    destruct v; [congruence | reflexivity].
Qed.

Lemma head_outside_lit (d : ascii) (lit post : string) :
  Spec.head_outside CompositionExtractor.not_dot (String "." lit ++ post).
Proof. reflexivity. Qed.

(** The two category patterns find exactly [Spec.label_at]. *)
Lemma label_pattern_spec (lit s g0 g : string) :
  match_here [GroupPlus CompositionExtractor.not_dot; Lit (String "." lit)] s g0
  = Some g
  <-> Spec.label_at (String "." lit) s g.
Proof.
  rewrite match_group_lit by reflexivity.
  split.
  - destruct (span CompositionExtractor.not_dot s) as [a b] eqn:E.
    destruct (span_spec _ _ _ _ E) as (-> & Ha & _).
    destruct a as [|c a]; [discriminate|].
    destruct (strip_prefix (String "." lit) b) as [post|] eqn:E2; [|discriminate].
    apply strip_prefix_Some in E2; subst b.
    intros H; inversion H; subst g.
    exists post. repeat split; auto. discriminate.
  - intros (post & -> & Hg & Hall).
    rewrite (span_app _ g (String "." lit ++ post) Hall (head_outside_lit "." lit post)).
    rewrite strip_prefix_app. destruct g; [congruence | reflexivity].
Qed.

(** [re.search] returns what the pattern finds at the leftmost position
    where it finds something. *)
Section Search.
Variable p : regex.
Variable P : string -> string -> Prop.
Hypothesis p_spec : forall s x, match_here p s EmptyString = Some x <-> P s x.

Lemma match_here_None (s : string) :
  match_here p s EmptyString = None <-> forall x, ~ P s x.
Proof.
  split.
  - intros H x Hx. apply p_spec in Hx. congruence.
  - intros H. destruct (match_here p s "") as [x|] eqn:E; [|reflexivity].
    exfalso. apply (H x), p_spec, E.
Qed.

Lemma re_search_Some (text x : string) :
  re_search p text = Some x <-> Spec.first_in P text x.
Proof.
  split.
  - revert x; induction text as [|c t IH]; intros x; simpl.
    + destruct (match_here p "" "") as [g|] eqn:E; [|discriminate].
      intros H; inversion H; subst g.
      exists "", "". repeat split; [now apply p_spec|].
      intros pre1 pre2 y H1 H2. destruct pre1, pre2; simpl in *; congruence.
    + destruct (match_here p (String c t) "") as [g|] eqn:E.
      * intros H; inversion H; subst g.
        exists "", (String c t). repeat split; [now apply p_spec|].
        intros pre1 pre2 y H1 H2. destruct pre1, pre2; simpl in *; congruence.
      * intros H. destruct (IH _ H) as (pre & rest & -> & HP & Hleft).
        exists (String c pre), rest. repeat split; auto.
        intros pre1 pre2 y H1 H2.
        destruct pre1 as [|c1 pre1]; simpl in H1.
        -- subst pre2. simpl. now apply match_here_None.
        -- inversion H1; subst. now apply (Hleft pre1).
  - intros (pre & rest & -> & HP & Hleft).
    induction pre as [|c pre IH]; simpl.
    + apply p_spec in HP. destruct rest; simpl; now rewrite HP.
    + assert (E : match_here p (String c pre ++ rest) "" = None).
      { apply match_here_None. intros y. apply (Hleft "" (String c pre));
          [reflexivity | discriminate]. }
      simpl in E. rewrite E. apply IH.
      intros pre1 pre2 y H1 H2. apply (Hleft (String c pre1) pre2);
        [simpl; now rewrite H1 | assumption].
Qed.

Lemma re_search_None (text : string) :
  re_search p text = None <-> Spec.nowhere P text.
Proof.
  split.
  - induction text as [|c t IH]; simpl.
    + destruct (match_here p "" "") eqn:E; [discriminate|]. intros _.
      intros pre rest x H. destruct pre, rest; try discriminate.
      now apply match_here_None.
    + destruct (match_here p (String c t) "") eqn:E; [discriminate|].
      intros H pre rest x Heq.
      destruct pre as [|c1 pre]; simpl in Heq.
      * subst rest. now apply match_here_None.
      * inversion Heq; subst. now apply (IH H pre rest).
  - intros H. induction text as [|c t IH]; simpl.
    + assert (E : match_here p "" "" = None)
        by (apply match_here_None; intros x; now apply (H "" "")).
      now rewrite E.
    + assert (E : match_here p (String c t) "" = None)
        by (apply match_here_None; intros x; now apply (H "" (String c t))).
      rewrite E. apply IH. intros pre rest x Heq.
      apply (H (String c pre) rest x). simpl; now rewrite Heq.
Qed.
End Search.

End RegexFacts.

(** *** The fragment parser and the category *)

Module ParserFacts.
Import Text Regex Py CompositionExtractor Spec TextFacts RegexFacts.

Lemma value_char_no_space (s : string) :
  forallb_str value_char s = true ->
  forallb_str (fun c => negb (isspace c)) s = true.
Proof.
  apply forallb_str_impl. intros c H. unfold value_char in H.
  now apply andb_true_iff in H as [H _]; apply andb_true_iff in H as [H _].
Qed.

Lemma first_value_strip (key content v : string) :
  first_in (value_at key) content v -> strip v = v.
Proof.
  intros (pre & rest & _ & (ws & post & _ & _ & _ & Hall & _) & _).
  now apply strip_id, value_char_no_space.
Qed.

Lemma api_search (content v : string) :
  re_search api_pattern content = Some v
  <-> first_in (value_at "apiVersion:") content v.
Proof. apply re_search_Some. intros s x. apply value_pattern_spec. Qed.

Lemma kind_search (content v : string) :
  re_search kind_pattern content = Some v
  <-> first_in (value_at "kind:") content v.
Proof. apply re_search_Some. intros s x. apply value_pattern_spec. Qed.



Lemma crossplane_search (api g : string) :
  re_search crossplane_pattern api = Some g
  <-> first_in (label_at ".crossplane.io") api g.
Proof. apply re_search_Some. intros s x. apply label_pattern_spec. Qed.

Lemma upbound_search (api g : string) :
  re_search upbound_pattern api = Some g
  <-> first_in (label_at ".upbound.io") api g.
Proof. apply re_search_Some. intros s x. apply label_pattern_spec. Qed.

Lemma crossplane_search_None (api : string) :
  re_search crossplane_pattern api = None
  <-> nowhere (label_at ".crossplane.io") api.
Proof. apply re_search_None. intros s x. apply label_pattern_spec. Qed.

Lemma upbound_search_None (api : string) :
  re_search upbound_pattern api = None
  <-> nowhere (label_at ".upbound.io") api.
Proof. apply re_search_None. intros s x. apply label_pattern_spec. Qed.

Lemma nowhere_empty (P : string -> string -> Prop) :
  (forall x, ~ P EmptyString x) -> nowhere P EmptyString.
Proof.
  intros H pre rest x Heq. destruct pre, rest; try discriminate. apply H.
Qed.

Lemma no_label_in_empty (suffix : string) (g : string) :
  ~ label_at suffix EmptyString g.
Proof.
  intros (post & Heq & Hg & _). destruct g; [congruence | discriminate].
Qed.

End ParserFacts.

Import Text Regex Py CompositionExtractor Spec.


(** C4.  [_get_api_category] depends on the apiVersion string alone.  It
    returns the dot-free label that immediately precedes [.crossplane.io]
    (the first such label), else the one that precedes [.upbound.io], else
    ["other"]; the four values of the specification are as stated. *)
Theorem get_api_category_spec :
  (forall api_version : string,
      (exists g, first_in (label_at ".crossplane.io") api_version g /\
                 _get_api_category api_version = g)
      \/ (nowhere (label_at ".crossplane.io") api_version /\
          exists g, first_in (label_at ".upbound.io") api_version g /\
                    _get_api_category api_version = g)
      \/ (nowhere (label_at ".crossplane.io") api_version /\
          nowhere (label_at ".upbound.io") api_version /\
          _get_api_category api_version = "other"))
  /\ _get_api_category "aws.upbound.io/v1beta1" = "aws"
  /\ _get_api_category "fn.crossplane.io/v1beta1" = "fn"
  /\ _get_api_category "v1" = "other"
  /\ _get_api_category "" = "other".
Proof.
  split; [|repeat split; reflexivity].
  intros api. unfold _get_api_category.
  destruct (String.eqb api "") eqn:E0.
  - apply String.eqb_eq in E0; subst api. right; right.
    repeat split; apply ParserFacts.nowhere_empty, ParserFacts.no_label_in_empty.
  - destruct (re_search crossplane_pattern api) as [g|] eqn:Ec.
    + left. exists g. split; [now apply ParserFacts.crossplane_search | reflexivity].
    + apply ParserFacts.crossplane_search_None in Ec.
      destruct (re_search upbound_pattern api) as [g|] eqn:Eu.
      * right; left. split; [assumption|]. exists g.
        split; [now apply ParserFacts.upbound_search | reflexivity].
      * right; right. split; [assumption | split; [|reflexivity]].
        now apply ParserFacts.upbound_search_None.
Qed.

(** *** The recursive scanner *)

Module ScannerFacts.
Import Text Regex Py CompositionExtractor Spec.

Lemma lookup_In (name : string) (entries : list (scalar * value)) (v : value) :
  lookup name entries = Some v -> In (SStr name, v) entries.
Proof.
  induction entries as [|[key x] rest IH]; simpl; [discriminate|].
  destruct (key_is name key) eqn:E.
  - intros H; inversion H; subst x. left.
    destruct key; try discriminate. simpl in E.
    now apply String.eqb_eq in E; subst.
  - intros H; right; auto.
Qed.

Lemma recursive_search_dict (entries : list (scalar * value)) :
  _recursive_search (VDict entries) = search_items entries entries.
Proof. reflexivity. Qed.

Lemma recursive_search_list (elements : list value) :
  _recursive_search (VList elements) = search_each elements.
Proof. reflexivity. Qed.

Lemma search_items_In (entries todo : list (scalar * value))
      (k : scalar) (x : value) (r : resource) :
  In (k, x) todo ->
  In r (found_at entries k x) \/ In r (_recursive_search x) ->
  In r (search_items entries todo).
Proof.
  induction todo as [|[key v] todo IH]; simpl; [tauto|].
  intros [H|H] Hr.
  - inversion H; subst. apply in_or_app.
    destruct Hr as [Hr|Hr]; [now left | right; apply in_or_app; now left].
  - apply in_or_app; right; apply in_or_app; right. now apply IH.
Qed.

Lemma search_each_In (todo : list value) (x : value) (r : resource) :
  In x todo -> In r (_recursive_search x) -> In r (search_each todo).
Proof.
  induction todo as [|item todo IH]; simpl; [tauto|].
  intros [H|H] Hr; apply in_or_app; [left; now subst | right; now apply IH].
Qed.

(** Whatever is found in a reachable part is found in the whole. *)
Lemma recursive_search_reachable (root v : value) (r : resource) :
  reachable root v -> In r (_recursive_search v) -> In r (_recursive_search root).
Proof.
  induction 1 as [v | items x v Hin _ IH | entries k x v Hin _ IH]; intros Hr.
  - assumption.
  - rewrite recursive_search_list. eapply search_each_In; eauto.
  - rewrite recursive_search_dict. eapply search_items_In; eauto.
Qed.

End ScannerFacts.

(** C5.  Every mapping reachable in a document, at any depth, whose
    ["apiVersion"] is a string containing [.crossplane.io/] or
    [.upbound.io/] makes the scanner emit a resource with that apiVersion,
    the ["kind"] of the same mapping (["N/A"] when it has none) and the
    category of the apiVersion. *)
Theorem recursive_search_finds
    (doc : value) (entries : list (scalar * value)) (api : string) :
  reachable doc (VDict entries) ->
  lookup "apiVersion" entries = Some (VStr api) ->
  _is_crossplane_or_upbound_apiversion api = true ->
  In {| kind_api_version := str (sibling_kind entries) ++ "_" ++ api;
        kind := sibling_kind entries;
        api_version := api;
        category := Some (_get_api_category api) |}
     (_recursive_search doc).
Proof.
  intros Hreach Hget Hfilter.
  apply (ScannerFacts.recursive_search_reachable doc (VDict entries)); [assumption|].
  rewrite ScannerFacts.recursive_search_dict.
  apply (ScannerFacts.search_items_In entries entries (SStr "apiVersion") (VStr api)).
  - now apply ScannerFacts.lookup_In.
  - left. unfold found_at, VStr. cbn [key_is]. rewrite String.eqb_refl, Hfilter.
    left. reflexivity.
Qed.

(** The scenario of the specification: the manifest nested under
    [spec.forProvider.manifest] is found, with kind ["Instance"] and
    category ["aws"]. *)
Lemma recursive_search_finds_nested_instance :
  In {| kind_api_version := "Instance_ec2.aws.upbound.io/v1beta1";
        kind := VStr "Instance";
        api_version := "ec2.aws.upbound.io/v1beta1";
        category := Some "aws" |}
     (_recursive_search Examples.nested_instance).
Proof.
  apply (recursive_search_finds Examples.nested_instance
           [(SStr "apiVersion", VStr "ec2.aws.upbound.io/v1beta1");
            (SStr "kind", VStr "Instance")]
           "ec2.aws.upbound.io/v1beta1").
  - eapply reach_entry; [right; right; left; reflexivity|].
    eapply reach_entry; [left; reflexivity|].
    eapply reach_entry; [left; reflexivity|].
    apply reach_here.
  - reflexivity.
  - reflexivity.
Defined.

(** *** The statistics *)

Module StatisticsFacts.
Import Text Regex Py CompositionExtractor Spec.







End StatisticsFacts.




(** *** The extractor and the run over the files *)

Module ExtractorFacts.
Import Text Regex Py CompositionExtractor Spec.


Lemma existsb_set_add (p : scalar -> bool) (x : scalar) (s : list scalar) :
  existsb p s = true -> existsb p (set_add x s) = true.
Proof.
  intros H. unfold set_add. destruct (existsb (scalar_eqb x) s); [assumption|].
  rewrite existsb_app, H. reflexivity.
Qed.


(** [update] only touches the set, whether it raises or not. *)
Lemma update_functions_frame (refs : list value) (st st1 : state)
      (u : result unit) :
  update_functions refs st = (u, st1) ->
  extracted_data st1 = extracted_data st /\ error_log st1 = error_log st /\
  forall name, in_catalog name st = true -> in_catalog name st1 = true.
Proof.
  revert st; induction refs as [|name refs IH]; intros st; simpl.
  - intros H; inversion H; subst; auto.
  - destruct name as [c| |]; try (intros H; inversion H; subst; auto).
    destruct (IH _ H) as (Hd & Hl & Hc). simpl in Hd, Hl.
    repeat split; auto.
    intros name Hname. apply Hc. destruct name; simpl in *; try discriminate.
    now apply existsb_set_add.
Qed.


Lemma accepted_inv (doc : value) :
  accepted doc = true ->
  exists doc_api doc_kind,
    get doc "apiVersion" VNone = Ok doc_api /\
    get doc "kind" VNone = Ok doc_kind /\
    is_composition doc_api doc_kind = true.
Proof.
  unfold accepted.
  destruct (get doc "apiVersion" VNone) as [a|]; [|discriminate].
  destruct (get doc "kind" VNone) as [k|]; [|discriminate].
  intros H; now exists a, k.
Qed.

(** For an accepted document everything hinges on [collect] and
    [record_and_emit]. *)
Lemma extract_accepted (doc : value) (file_path : string) (st : state) :
  accepted doc = true ->
  _extract_composition_details doc file_path st =
  match collect doc with
  | Ok (composite_kind_api, function_refs, special_resources) =>
      record_and_emit file_path composite_kind_api function_refs
                      special_resources st
  | Raise e => (Raise e, st)
  end.
Proof.
  intros H. destruct (accepted_inv doc H) as (a & k & Ha & Hk & Hc).
  unfold _extract_composition_details, bindM, lift.
  rewrite Ha, Hk, Hc. cbn [negb].
  destruct (collect doc) as [[[key refs] rs]|e]; reflexivity.
Qed.

Lemma record_and_emit_frame (file_path key : string) (refs : list value)
      (rs : list resource) (st st1 : state) (r : result (list row)) :
  record_and_emit file_path key refs rs st = (r, st1) ->
  extracted_data st1 = extracted_data st /\ error_log st1 = error_log st.
Proof.
  unfold record_and_emit, bindM, lift.
  destruct (update_functions refs st) as [u s1] eqn:E.
  destruct (update_functions_frame _ _ _ _ E) as (Hd & Hl & _).
  destruct u; intros H; inversion H; subst; auto.
Qed.

(** [_extract_composition_details] leaves [self.extracted_data] alone: the
    caller extends it. *)
Lemma extract_frame (doc : value) (file_path : string) (st st1 : state)
      (r : result (list row)) :
  _extract_composition_details doc file_path st = (r, st1) ->
  extracted_data st1 = extracted_data st /\ error_log st1 = error_log st.
Proof.
  unfold _extract_composition_details, bindM, lift, ret.
  destruct (get doc "apiVersion" VNone) as [a|];
    [|intros H; inversion H; subst; auto].
  destruct (get doc "kind" VNone) as [k|];
    [|intros H; inversion H; subst; auto].
  destruct (negb (is_composition a k)); [intros H; inversion H; subst; auto|].
  destruct (collect doc) as [[[key refs] rs]|e];
    [|intros H; inversion H; subst; auto].
  apply record_and_emit_frame.
Qed.

(** A document adds rows at the end of the list, or none when it raises. *)
Lemma one_document_rows (doc : value) (file_path : string) (st st1 : state)
      (r : result unit) :
  one_document doc file_path st = (r, st1) ->
  (exists kept, extracted_data st1 = (extracted_data st ++ kept)%list) /\
  (forall e, r = Raise e -> extracted_data st1 = extracted_data st).
Proof.
  unfold one_document, bindM, extend, ret.
  destruct (truthy doc).
  - destruct (_extract_composition_details doc file_path st) as [[rows|e] s]
      eqn:E; destruct (extract_frame _ _ _ _ _ E) as (Hd & _);
      intros H; inversion H; subst; simpl.
    + split; [exists rows; now rewrite Hd | discriminate].
    + split; [exists []; now rewrite app_nil_r | auto].
  - intros H; inversion H; subst. split; [exists []; now rewrite app_nil_r | auto].
Qed.

Lemma for_documents_rows (docs : list value) (m : bool) (file_path : string)
      (st st1 : state) (r : result unit) :
  for_documents docs m file_path st = (r, st1) ->
  exists kept, extracted_data st1 = (extracted_data st ++ kept)%list.
Proof.
  revert st; induction docs as [|doc docs IH]; intros st; simpl.
  - destruct m; intros H; inversion H; subst; exists []; now rewrite app_nil_r.
  - unfold bindM.
    destruct (one_document doc file_path st) as [[u|e] s] eqn:E;
      destruct (one_document_rows _ _ _ _ _ E) as ((k1 & Hk1) & _).
    + intros H. destruct (IH _ H) as (k2 & Hk2).
      exists (k1 ++ k2)%list. now rewrite Hk2, Hk1, app_assoc.
    + intros H; inversion H; subst. now exists k1.
Qed.

(** Once a document has raised, the documents behind it play no part. *)
Lemma for_documents_stops (good : list value) (doc : value)
      (rest : list value) (m : bool) (file_path : string)
      (st s1 s2 : state) (e : exn) :
  for_documents good false file_path st = (Ok tt, s1) ->
  one_document doc file_path s1 = (Raise e, s2) ->
  for_documents (good ++ doc :: rest) m file_path st = (Raise e, s2).
Proof.
  revert st; induction good as [|g good IH]; intros st; simpl.
  - intros H; inversion H; subst. intros H1. unfold bindM. now rewrite H1.
  - unfold bindM. destruct (one_document g file_path st) as [[u|e'] s] eqn:E.
    + intros H H1. now apply IH.
    + discriminate.
Qed.

Lemma extract_compositions_app (before after : list entry) (st : state) :
  extract_compositions (before ++ after) st =
  extract_compositions after (extract_compositions before st).
Proof. unfold extract_compositions. now rewrite filter_app, fold_left_app. Qed.

Lemma extract_compositions_cons (file : entry) (after : list entry) (st : state) :
  is_yaml_file file = true ->
  extract_compositions (file :: after) st =
  extract_compositions after (process_file st file).
Proof. intros H. unfold extract_compositions. simpl. now rewrite H. Qed.

(** An accepted document is itself among the resources the scanner finds:
    the placeholder never replaces the list. *)
Lemma accepted_finds_itself (doc : value) :
  accepted doc = true ->
  exists k, In {| kind_api_version := str k ++ "_apiextensions.crossplane.io/v1";
                  kind := k;
                  api_version := "apiextensions.crossplane.io/v1";
                  category := Some "apiextensions" |}
               (_recursive_search doc).
Proof.
  intros H. destruct (accepted_inv doc H) as (a & k & Ha & Hk & Hc).
  destruct doc as [c| |entries]; try discriminate.
  simpl in Ha. inversion Ha; subst a; clear Ha.
  unfold is_composition in Hc. apply negb_true_iff, orb_false_iff in Hc as [Hc _].
  destruct (lookup "apiVersion" entries) as [v|] eqn:El; [|discriminate].
  unfold ne_str in Hc. destruct v as [c| |]; try discriminate.
  destruct c as [| | |s]; try discriminate.
  apply negb_false_iff, String.eqb_eq in Hc; subst s.
  exists (sibling_kind entries).
  rewrite ScannerFacts.recursive_search_dict.
  apply (ScannerFacts.search_items_In entries entries (SStr "apiVersion")
           (VStr "apiextensions.crossplane.io/v1")).
  - now apply ScannerFacts.lookup_In.
  - left. left. reflexivity.
Qed.

End ExtractorFacts.

(** C1.  The scenario Composition of the specification has no resource of
    either domain below its root, yet its only row is not the ["N/A"]
    placeholder: [_recursive_search] starts at the root, whose own
    apiVersion passes the filter (see
    [ExtractorFacts.accepted_finds_itself]), so the row describes the
    Composition itself.  The placeholder entry has no ["category"]; the
    loop that builds the rows raises [KeyError] on it. *)
Theorem scenario_row_is_not_placeholder :
  _extract_composition_details Examples.patch_and_transform "composition.yaml"
                               initial_state
  = (Ok [Examples.patch_and_transform_row "composition.yaml"],
     {| extracted_data := [];
        unique_functions := [SStr "function-patch-and-transform"; SStr "N/A"];
        error_log := [] |})
  /\ emit_rows "composition.yaml" "XFoo_example.org/v1" [placeholder]
     = Raise (KeyError "category").
Proof. split; reflexivity. Qed.



(** C9.  Whatever makes the attempt on a file raise, an unreadable file, a
    malformed stream or an exception out of one of its documents, the run
    logs it and goes on with the next file from the state the attempt
    left.  That state keeps every row appended before, from earlier files
    and from the earlier documents of this file; when the exception comes
    out of a document, it is the state that document left, with no row
    added by it, and the documents behind it are not looked at. *)
Theorem file_failure_is_contained
    (before after : list entry) (file : entry) (st failed : state) (e : exn) :
  is_yaml_file file = true ->
  attempt file (extract_compositions before st) = (Raise e, failed) ->
  extract_compositions (before ++ file :: after) st
    = extract_compositions after (logged failed (fst file) e)
  /\ (exists kept,
        extracted_data failed
        = (extracted_data (extract_compositions before st) ++ kept)%list)
  /\ (forall good doc rest m s1 s2 e',
        snd file = Readable (good ++ doc :: rest) m ->
        for_documents good false (fst file) (extract_compositions before st)
          = (Ok tt, s1) ->
        one_document doc (fst file) s1 = (Raise e', s2) ->
        failed = s2 /\ e = e' /\ extracted_data failed = extracted_data s1).
Proof.
  intros Hyaml Hatt. split; [|split].
  - rewrite ExtractorFacts.extract_compositions_app,
            (ExtractorFacts.extract_compositions_cons _ _ _ Hyaml).
    unfold process_file. now rewrite Hatt.
  - unfold attempt, lift in Hatt. destruct (snd file) as [|docs m].
    + inversion Hatt; subst. exists []; now rewrite app_nil_r.
    + eapply ExtractorFacts.for_documents_rows; exact Hatt.
  - intros good doc rest m s1 s2 e' Hfile Hgood Hdoc.
    unfold attempt in Hatt. rewrite Hfile in Hatt.
    rewrite (ExtractorFacts.for_documents_stops _ _ rest m _ _ _ _ _ Hgood Hdoc)
      in Hatt.
    inversion Hatt; subst. repeat split.
    exact (proj2 (ExtractorFacts.one_document_rows _ _ _ _ _ Hdoc) _ eq_refl).
Qed.

Lemma file_failure_is_contained_witness :
  let st := extract_compositions Examples.three_files initial_state in
  extracted_data st
  = [Examples.patch_and_transform_row "a.yaml";
     Examples.patch_and_transform_row "b.yaml";
     Examples.patch_and_transform_row "c.yml"]
  /\ error_log st = [("b.yaml", AttributeError)].
Proof.
  destruct (file_failure_is_contained
              [("a.yaml", Readable [Examples.patch_and_transform] false)]
              [("c.yml", Readable [Examples.patch_and_transform] false)]
              ("b.yaml", Readable [Examples.patch_and_transform;
                                   VList [VStr "not"; VStr "a mapping"];
                                   Examples.patch_and_transform] false)
              initial_state
              {| extracted_data := [Examples.patch_and_transform_row "a.yaml";
                                    Examples.patch_and_transform_row "b.yaml"];
                 unique_functions := [SStr "function-patch-and-transform";
                                      SStr "N/A"];
                 error_log := [] |}
              AttributeError eq_refl eq_refl) as (Hrun & _ & _).
  cbv zeta.
  replace (extract_compositions Examples.three_files initial_state)
    with (extract_compositions
            [("c.yml", Readable [Examples.patch_and_transform] false)]
            (logged
               {| extracted_data := [Examples.patch_and_transform_row "a.yaml";
                                     Examples.patch_and_transform_row "b.yaml"];
                  unique_functions := [SStr "function-patch-and-transform";
                                       SStr "N/A"];
                  error_log := [] |}
               "b.yaml" AttributeError))
    by (symmetry; exact Hrun).
  split; reflexivity.
Defined.

(** *** The template extractor *)

Module TemplateFacts.
Import Text Regex Py CompositionExtractor Spec TextFacts.

Lemma prefix_spec (p s : string) :
  String.prefix p s = true <-> exists post, s = p ++ post.
Proof.
  revert s; induction p as [|a p IH]; intros s.
  - split; [intros _; now exists s | intros _; now destruct s].
  - destruct s as [|b s]; simpl.
    + split; [discriminate | intros (post & H); discriminate].
    + destruct (ascii_dec a b) as [->|Hab].
      * rewrite IH. split; intros (post & H); exists post;
          [now subst | now inversion H].
      * split; [discriminate | intros (post & H); inversion H; congruence].
Qed.

Lemma contains_unfold (k s : string) :
  contains k s =
  if String.prefix k s then true
  else match s with
       | EmptyString => false
       | String _ s' => contains k s'
       end.
Proof. destruct s; reflexivity. Qed.

Lemma contains_spec (k s : string) :
  contains k s = true <-> exists pre post, s = pre ++ k ++ post.
Proof.
  induction s as [|c s IH]; rewrite contains_unfold.
  - destruct (String.prefix k "") eqn:E.
    + apply prefix_spec in E as (post & E).
      split; [intros _; now exists "", post | intros _; reflexivity].
    + split; [discriminate|]. intros (pre & post & H).
      destruct pre; [|discriminate]. simpl in H.
      assert (String.prefix k "" = true) by (apply prefix_spec; now exists post).
      congruence.
  - destruct (String.prefix k (String c s)) eqn:E.
    + apply prefix_spec in E as (post & E).
      split; [intros _; now exists "", post | intros _; reflexivity].
    + rewrite IH. split.
      * intros (pre & post & ->). now exists (String c pre), post.
      * intros (pre & post & H). destruct pre as [|c' pre]; simpl in H.
        -- assert (String.prefix k (String c s) = true)
             by (apply prefix_spec; now exists post).
           congruence.
        -- inversion H; subst. now exists pre, post.
Qed.













(** *** The line loop *)

Lemma for_lines_app (lines a b : list string) (st : scan) :
  for_lines lines (a ++ b) st =
  bind (for_lines lines a st) (fun st' => for_lines lines b st').
Proof.
  revert st; induction a as [|line a IH]; intros st; simpl; [reflexivity|].
  destruct (loop_body lines st line); simpl; [apply IH | reflexivity].
Qed.

Lemma loop_body_comment (lines : list string) (st : scan) (line : string) :
  is_comment line = true -> loop_body lines st line = Ok st.
Proof. unfold is_comment, loop_body. now intros ->. Qed.

Lemma parse_templated_yaml_parsed (content : string) :
  _parse_templated_yaml content = Ok (parsed content).
Proof.
  unfold _parse_templated_yaml, parsed.
  destruct (re_search api_pattern content), (re_search kind_pattern content);
    reflexivity.
Qed.

Lemma append_parsed_ok (docs : list value) (buffer : list string) :
  append_parsed docs buffer = Ok (docs ++ [parsed (join " " buffer)])%list.
Proof. unfold append_parsed. now rewrite parse_templated_yaml_parsed. Qed.






End TemplateFacts.

Module FragmentFacts.
Import Text Regex Py CompositionExtractor Spec TextFacts TemplateFacts.








End FragmentFacts.

(** C8.  A line whose trimmed content starts with [#] leaves the scan as it
    found it, documents, buffer and flag: it opens nothing and is not
    buffered, and the scan of a list of lines is the scan of the list
    without it. *)
Theorem comment_line_is_skipped
    (lines before after : list string) (line : string) (st : scan) :
  is_comment line = true ->
  loop_body lines st line = Ok st
  /\ for_lines lines (before ++ line :: after) st
     = for_lines lines (before ++ after) st.
Proof.
  intros H. split; [now apply TemplateFacts.loop_body_comment|].
  rewrite !TemplateFacts.for_lines_app.
  destruct (for_lines lines before st) as [st'|e]; [|reflexivity].
  cbn [bind for_lines]. now rewrite (TemplateFacts.loop_body_comment _ _ _ H).
Qed.

Lemma comment_line_is_skipped_witness :
  loop_body Examples.commented
            {| yaml_docs := []; current_doc := ["apiVersion: v1"];
               in_yaml := true |}
            "# apiVersion: fake/v1"
  = Ok {| yaml_docs := []; current_doc := ["apiVersion: v1"]; in_yaml := true |}
  /\ for_lines Examples.commented Examples.commented scan_start
     = Ok {| yaml_docs := [];
             current_doc := ["apiVersion: v1"; "kind: Foo"];
             in_yaml := true |}.
Proof.
  split.
  - apply (comment_line_is_skipped Examples.commented [] []
             "# apiVersion: fake/v1" _ eq_refl).
  - change Examples.commented
      with (["apiVersion: v1"] ++ "# apiVersion: fake/v1" :: ["kind: Foo"])%list
      at 2.
    rewrite (proj2 (comment_line_is_skipped Examples.commented
                      ["apiVersion: v1"] ["kind: Foo"]
                      "# apiVersion: fake/v1" scan_start eq_refl)).
    reflexivity.
Defined.

(** C2.  In [Examples.repeated_start] the line at position 4 holds
    ["apiVersion:"] and the window that starts there holds ["kind:"], yet
    no document starts: the code takes the window at [lines.index(line)],
    the first line equal to this one, which is line 0.  The scan reaches
    line 4 in the idle state, leaves it in the idle state, and the
    extractor returns nothing. *)
Theorem repeated_line_opens_no_document :
  let lines := split_lines Examples.repeated_start in
  nth 4 lines "" = "apiVersion: v1"
  /\ starts_document_at lines 4 = true
  /\ list_index (nth 4 lines "") lines = Some 0
  /\ for_lines lines (firstn 4 lines) scan_start = Ok scan_start
  /\ loop_body lines scan_start (nth 4 lines "") = Ok scan_start
  /\ _extract_template_content (VStr Examples.repeated_start) = Ok [].
Proof. repeat split. Qed.




(** *** Invariants of the line loop *)

Module ScanFacts.
Import Text Regex Py CompositionExtractor Spec TextFacts TemplateFacts.

Lemma list_index_In (line : string) (lines : list string) :
  In line lines -> exists i, list_index line lines = Some i.
Proof.
  induction lines as [|l lines IH]; simpl; [tauto|].
  intros [H|H].
  - subst l. rewrite String.eqb_refl. now exists 0.
  - destruct (String.eqb l line); [now exists 0|].
    destruct (IH H) as (i & ->). now exists (S i).
Qed.

(** The three things the marker loop can do. *)
Lemma check_markers_cases (lines : list string) (line : string) (st : scan) :
  In line lines ->
  check_markers resource_markers lines line st = Ok st
  \/ (contains "apiVersion:" line = true /\
      check_markers resource_markers lines line st
      = Ok {| yaml_docs :=
                if in_yaml st && nonempty (current_doc st)
                then (yaml_docs st ++ [parsed (join " " (current_doc st))])%list
                else yaml_docs st;
              current_doc := [];
              in_yaml := true |}).
Proof.
  intros Hin. destruct (list_index_In _ _ Hin) as (i & Hi).
  simpl. destruct (contains "apiVersion:" line) eqn:E; [|now left].
  rewrite Hi.
  destruct (contains "kind:" (join "" (slice i (i + 3) lines))).
  - right. split; [reflexivity|].
    destruct (in_yaml st && nonempty (current_doc st));
      [now rewrite append_parsed_ok | reflexivity].
  - destruct (contains "metadata:" (join "" (slice i (i + 3) lines)));
      [|now left].
    right. split; [reflexivity|].
    destruct (in_yaml st && nonempty (current_doc st));
      [now rewrite append_parsed_ok | reflexivity].
Qed.

Lemma nonempty_snoc {A : Type} (l : list A) (x : A) : nonempty (l ++ [x]) = true.
Proof. now destruct l. Qed.

Lemma parsed_docs_snoc (docs : list value) (content : string) :
  Forall (fun doc => exists c, doc = parsed c) docs ->
  Forall (fun doc => exists c, doc = parsed c) (docs ++ [parsed content]).
Proof.
  intros H. apply Forall_app. split; [assumption|].
  constructor; [now exists content | constructor].
Qed.

(** One iteration never raises on a line of the text, keeps the invariant,
    and raises the measure by one at most, and only on a marker line. *)
Lemma loop_body_step (lines : list string) (line : string) (st : scan) :
  In line lines -> scan_inv st ->
  exists st',
    loop_body lines st line = Ok st' /\ scan_inv st' /\
    scan_measure st' <= scan_measure st + (if is_marker_line line then 1 else 0).
Proof.
  intros Hin (Hdocs & Hflag & Hbuf).
  unfold loop_body, is_marker_line. fold (is_comment line).
  destruct (is_comment line) eqn:Ec.
  - exists st. repeat split; auto. simpl. lia.
  - cbn [negb andb].
    destruct (check_markers_cases lines line st Hin) as [Hcm | (Hmark & Hcm)];
      rewrite Hcm; cbn [bind].
    + (* no document opened *)
      assert (Hle : forall n, n <= n + (if contains "apiVersion:" line then 1 else 0))
        by (intros; lia).
      destruct (in_yaml st) eqn:Ey.
      * cbn [in_yaml current_doc yaml_docs].
        destruct (String.eqb (strip line) "---"); cbn [andb].
        -- rewrite nonempty_snoc, append_parsed_ok. cbn [bind].
           eexists; split; [reflexivity|]. split.
           ++ repeat split; cbn; auto. now apply parsed_docs_snoc.
           ++ unfold scan_measure. cbn. rewrite length_app, Ey. cbn.
              destruct (contains "apiVersion:" line); lia.
        -- eexists; split; [reflexivity|]. split.
           ++ repeat split; cbn; auto.
              ** now rewrite nonempty_snoc.
              ** apply Forall_app; split; [assumption|].
                 constructor; [assumption | constructor].
           ++ unfold scan_measure. cbn. rewrite Ey.
              destruct (contains "apiVersion:" line); lia.
      * rewrite Ey. rewrite andb_false_r.
        exists st. split; [reflexivity|]. split.
        -- repeat split; auto. now rewrite Ey.
        -- destruct (contains "apiVersion:" line); lia.
    + (* a document opened *)
      rewrite Hmark. cbn [in_yaml current_doc yaml_docs app].
      assert (Hdocs' : Forall (fun doc => exists c, doc = parsed c)
                (if in_yaml st && nonempty (current_doc st)
                 then (yaml_docs st ++ [parsed (join " " (current_doc st))])%list
                 else yaml_docs st)).
      { destruct (in_yaml st && nonempty (current_doc st));
          [now apply parsed_docs_snoc | assumption]. }
      assert (Hlen : List.length
                (if in_yaml st && nonempty (current_doc st)
                 then (yaml_docs st ++ [parsed (join " " (current_doc st))])%list
                 else yaml_docs st)
              + 1 <= scan_measure st + 1).
      { unfold scan_measure. destruct (in_yaml st); cbn [andb].
        - destruct (nonempty (current_doc st)); [rewrite length_app; cbn|]; lia.
        - lia. }
      destruct (String.eqb (strip line) "---"); cbn [andb nonempty].
      * rewrite append_parsed_ok. cbn [bind].
        eexists; split; [reflexivity|]. split.
        -- repeat split; cbn; auto. now apply parsed_docs_snoc.
        -- unfold scan_measure. cbn. rewrite length_app. cbn.
           unfold scan_measure in Hlen. lia.
      * eexists; split; [reflexivity|]. split.
        -- repeat split; cbn; auto.
        -- unfold scan_measure. cbn. unfold scan_measure in Hlen. lia.
Qed.

Lemma for_lines_steps (lines todo : list string) (st : scan) :
  incl todo lines -> scan_inv st ->
  exists st',
    for_lines lines todo st = Ok st' /\ scan_inv st' /\
    scan_measure st' <= scan_measure st + marker_count todo.
Proof.
  revert st; induction todo as [|line todo IH]; intros st Hincl Hinv.
  - exists st. split; [reflexivity|]. split; [assumption|].
    unfold marker_count; simpl; lia.
  - destruct (loop_body_step lines line st (Hincl _ (or_introl eq_refl)) Hinv)
      as (st1 & H1 & Hinv1 & Hm1).
    destruct (IH st1 (fun x Hx => Hincl x (or_intror Hx)) Hinv1)
      as (st2 & H2 & Hinv2 & Hm2).
    exists st2. cbn [for_lines]. rewrite H1. cbn [bind].
    split; [assumption|]. split; [assumption|].
    unfold marker_count in *. simpl.
    destruct (is_marker_line line); simpl; lia.
Qed.

Lemma scan_start_inv : scan_inv scan_start.
Proof. repeat split; constructor. Qed.

(** The value the parser gives for a text is the empty dict or a pair of
    clean values. *)
Lemma parsed_shape (content : string) :
  parsed content = VDict []
  \/ exists a k, parsed content = api_kind_dict a k /\
                 clean_value a /\ clean_value k.
Proof.
  unfold parsed.
  destruct (re_search api_pattern content) as [a|] eqn:Ea; [|now left].
  destruct (re_search kind_pattern content) as [k|] eqn:Ek; [|now left].
  right. apply ParserFacts.api_search in Ea. apply ParserFacts.kind_search in Ek.
  rewrite (ParserFacts.first_value_strip _ _ _ Ea),
          (ParserFacts.first_value_strip _ _ _ Ek).
  exists a, k. split; [reflexivity|].
  destruct Ea as (_ & _ & _ & (_ & _ & _ & _ & Ha1 & Ha2 & _) & _).
  destruct Ek as (_ & _ & _ & (_ & _ & _ & _ & Hk1 & Hk2 & _) & _).
  repeat split; assumption.
Qed.

(** What [_extract_template_content] returns for a text. *)
Lemma extract_template_text (text : string) :
  exists st,
    for_lines (split_lines text) (split_lines text) scan_start = Ok st /\
    scan_inv st /\
    scan_measure st <= marker_count (split_lines text) /\
    _extract_template_content (VStr text)
    = Ok (filter truthy
            (if nonempty (current_doc st)
             then (yaml_docs st ++ [parsed (join " " (current_doc st))])%list
             else yaml_docs st)).
Proof.
  destruct (for_lines_steps (split_lines text) (split_lines text) scan_start
              (incl_refl _) scan_start_inv) as (st & Hst & Hinv & Hm).
  exists st. split; [assumption|]. split; [assumption|].
  split; [exact Hm|].
  unfold _extract_template_content, VStr. cbv zeta. rewrite Hst. cbn [bind].
  destruct (nonempty (current_doc st));
    [now rewrite append_parsed_ok | reflexivity].
Qed.

Lemma extract_template_not_text (v : value) :
  (forall text, v <> VStr text) -> _extract_template_content v = Ok [].
Proof.
  intros H. destruct v as [c| |]; try reflexivity.
  destruct c; try reflexivity. now destruct (H s).
Qed.

Lemma filter_length_le {A : Type} (f : A -> bool) (l : list A) :
  List.length (filter f l) <= List.length l.
Proof. induction l; simpl; [lia|]. destruct (f a); simpl; lia. Qed.

End ScanFacts.

(** *** What the scanner emits *)

Module SoundnessFacts.
Import Text Regex Py CompositionExtractor Spec ScannerFacts.

(** Induction on a parsed value, with the hypothesis available for every
    item of a sequence and every value of a mapping. *)
Lemma value_nested_ind (P : value -> Prop) :
  (forall c, P (VScalar c)) ->
  (forall items, Forall P items -> P (VList items)) ->
  (forall entries, Forall (fun kv => P (snd kv)) entries -> P (VDict entries)) ->
  forall v, P v.
Proof.
  intros Hs Hl Hd. fix IH 1. intros [c|items|entries].
  - apply Hs.
  - apply Hl. induction items as [|x items IHitems]; constructor;
      [apply IH | exact IHitems].
  - apply Hd. induction entries as [|[k x] entries IHentries]; constructor;
      [apply IH | exact IHentries].
Qed.

Lemma found_at_inv (entries : list (scalar * value)) (key : scalar) (v : value)
      (r : resource) :
  In r (found_at entries key v) ->
  exists api,
    key = SStr "apiVersion" /\ v = VStr api /\
    _is_crossplane_or_upbound_apiversion api = true /\
    r = {| kind_api_version := str (sibling_kind entries) ++ "_" ++ api;
           kind := sibling_kind entries;
           api_version := api;
           category := Some (_get_api_category api) |}.
Proof.
  unfold found_at. destruct v as [c| |]; try (intros []).
  destruct c as [| | |api]; try (intros []).
  destruct (key_is "apiVersion" key) eqn:Ek; [|intros []].
  destruct (_is_crossplane_or_upbound_apiversion api) eqn:Ef; [|intros []].
  intros [H|[]]. exists api. repeat split; auto.
  destruct key as [| | |s]; try discriminate.
  simpl in Ek. now apply String.eqb_eq in Ek; subst s.
Qed.

Lemma search_items_inv (entries todo : list (scalar * value)) (r : resource) :
  In r (search_items entries todo) ->
  exists k x, In (k, x) todo /\
              (In r (found_at entries k x) \/ In r (_recursive_search x)).
Proof.
  induction todo as [|[key v] todo IH]; simpl; [tauto|].
  intros H. apply in_app_or in H as [H|H].
  - exists key, v. auto.
  - apply in_app_or in H as [H|H].
    + exists key, v. auto.
    + destruct (IH H) as (k & x & Hin & Hr). exists k, x. auto.
Qed.

Lemma search_each_inv (todo : list value) (r : resource) :
  In r (search_each todo) -> exists x, In x todo /\ In r (_recursive_search x).
Proof.
  induction todo as [|item todo IH]; simpl; [tauto|].
  intros H. apply in_app_or in H as [H|H].
  - exists item. auto.
  - destruct (IH H) as (x & Hin & Hr). exists x. auto.
Qed.

Lemma reachable_trans_entry (entries : list (scalar * value)) (k : scalar)
      (x v : value) :
  In (k, x) entries -> reachable x v -> reachable (VDict entries) v.
Proof. intros; eapply reach_entry; eauto. Qed.

(** Every resource comes from an ["apiVersion"] item of a reachable mapping. *)
Lemma recursive_search_inv (doc : value) (r : resource) :
  In r (_recursive_search doc) ->
  exists entries api,
    reachable doc (VDict entries) /\
    In (SStr "apiVersion", VStr api) entries /\
    _is_crossplane_or_upbound_apiversion api = true /\
    r = {| kind_api_version := str (sibling_kind entries) ++ "_" ++ api;
           kind := sibling_kind entries;
           api_version := api;
           category := Some (_get_api_category api) |}.
Proof.
  revert r. induction doc as [c|items IH|entries IH] using value_nested_ind;
    intros r Hr.
  - destruct Hr.
  - rewrite recursive_search_list in Hr.
    destruct (search_each_inv _ _ Hr) as (x & Hin & Hx).
    rewrite Forall_forall in IH.
    destruct (IH x Hin r Hx) as (entries & api & Hreach & H).
    exists entries, api. split; [|exact H]. eapply reach_item; eauto.
  - rewrite recursive_search_dict in Hr.
    destruct (search_items_inv _ _ _ Hr) as (k & x & Hin & [Hf|Hx]).
    + destruct (found_at_inv _ _ _ _ Hf) as (api & -> & -> & Hfilter & ->).
      exists entries, api. repeat split; auto. apply reach_here.
    + rewrite Forall_forall in IH.
      destruct (IH (k, x) Hin r Hx) as (entries' & api & Hreach & H).
      exists entries', api. split; [|exact H]. eapply reach_entry; eauto.
Qed.

Lemma recursive_search_scanned (doc : value) (r : resource) :
  In r (_recursive_search doc) -> scanned_resource r.
Proof.
  intros H. destruct (recursive_search_inv _ _ H)
    as (entries & api & _ & _ & Hf & ->).
  repeat split; assumption.
Qed.

Lemma recursive_search_fragment (api k : string) :
  _recursive_search (api_kind_dict api k) =
  if _is_crossplane_or_upbound_apiversion api
  then [fragment_resource api k] else [].
Proof.
  unfold api_kind_dict, fragment_resource. simpl.
  destruct (_is_crossplane_or_upbound_apiversion api); reflexivity.
Qed.

End SoundnessFacts.

(** *** What [_extract_composition_details] returns *)

Module DetailsFacts.
Import Text Regex Py CompositionExtractor Spec ScannerFacts SoundnessFacts
       ExtractorFacts.

Lemma emit_rows_scanned (file_path key : string) (rs : list resource) :
  Forall scanned_resource rs ->
  emit_rows file_path key rs
  = Ok (map (fun r => row_of file_path key r (_get_api_category (api_version r)))
            rs).
Proof.
  induction 1 as [|r rs (_ & Hcat & _) _ IH]; simpl; [reflexivity|].
  now rewrite Hcat, IH.
Qed.

Lemma emit_rows_inv (file_path key : string) (rs : list resource)
      (rows : list row) :
  emit_rows file_path key rs = Ok rows ->
  forall r, In r rows ->
  exists res cat, In res rs /\ category res = Some cat /\
                  r = row_of file_path key res cat.
Proof.
  revert rows; induction rs as [|res rs IH]; intros rows; simpl.
  - intros H; inversion H; subst. intros r [].
  - destruct (category res) as [cat|] eqn:Ec; [|discriminate]. cbn [bind].
    destruct (emit_rows file_path key rs) as [rows'|] eqn:Er; [|discriminate].
    cbn [bind]. intros H; inversion H; subst; clear H.
    intros r [Hr|Hr].
    + exists res, cat. repeat split; auto.
    + destruct (IH rows' eq_refl r Hr) as (res' & cat' & Hin & Hc & ->).
      exists res', cat'. repeat split; auto.
Qed.

(** The fragments of a template are pairs of clean values. *)
Lemma extract_template_shape (template : value) :
  exists docs,
    _extract_template_content template = Ok docs /\
    forall doc, In doc docs ->
      exists a k, doc = api_kind_dict a k /\ clean_value a /\ clean_value k.
Proof.
  destruct template as [c|items|entries];
    try (exists []; split; [reflexivity | intros doc []]).
  destruct c as [| | |text];
    try (exists []; split; [reflexivity | intros doc []]).
  destruct (ScanFacts.extract_template_text text)
    as (st & _ & (Hdocs & _ & _) & _ & Hres).
  eexists; split; [exact Hres|].
  intros doc Hin. apply filter_In in Hin as [Hin Htruthy].
  assert (Hparsed : exists content, doc = parsed content).
  { destruct (nonempty (current_doc st)).
    - apply in_app_or in Hin as [Hin|[<-|[]]].
      + rewrite Forall_forall in Hdocs. now apply Hdocs.
      + eexists; reflexivity.
    - rewrite Forall_forall in Hdocs. now apply Hdocs. }
  destruct Hparsed as (content & ->).
  destruct (ScanFacts.parsed_shape content) as [He | (a & k & He & Ha & Hk)].
  - rewrite He in Htruthy. discriminate.
  - exists a, k. auto.
Qed.

Lemma flat_map_fragments (docs : list value) (r : resource) :
  (forall doc, In doc docs ->
     exists a k, doc = api_kind_dict a k /\ clean_value a /\ clean_value k) ->
  In r (flat_map _recursive_search docs) ->
  exists a k, clean_value a /\ clean_value k /\
              _is_crossplane_or_upbound_apiversion a = true /\
              r = fragment_resource a k.
Proof.
  intros Hshape Hr. apply in_flat_map in Hr as (doc & Hin & Hr).
  destruct (Hshape doc Hin) as (a & k & -> & Ha & Hk).
  rewrite recursive_search_fragment in Hr.
  destruct (_is_crossplane_or_upbound_apiversion a) eqn:Ef; [|destruct Hr].
  destruct Hr as [<-|[]]. exists a, k. auto.
Qed.

Lemma template_resources_inv (steps : list value) (rs : list resource) :
  template_resources steps = Ok rs ->
  forall r, In r rs ->
  exists a k, clean_value a /\ clean_value k /\
              _is_crossplane_or_upbound_apiversion a = true /\
              r = fragment_resource a k.
Proof.
  revert rs; induction steps as [|step steps IH]; intros rs; simpl.
  - intros H; inversion H; subst. intros r [].
  - destruct (get step "input" (VDict [])) as [input|]; [|discriminate].
    cbn [bind].
    destruct (get input "inline" (VDict [])) as [inline|]; [|discriminate].
    cbn [bind].
    destruct (get inline "template" (VStr "")) as [template|]; [|discriminate].
    cbn [bind].
    destruct (extract_template_shape template) as (docs & Hdocs & Hshape).
    destruct (template_resources steps) as [more|] eqn:Em.
    + destruct (truthy template).
      * rewrite Hdocs. cbn [bind]. intros H; inversion H; subst; clear H.
        intros r Hr. apply in_app_or in Hr as [Hr|Hr].
        -- now apply (flat_map_fragments docs).
        -- now apply (IH _ eq_refl).
      * cbn [bind]. intros H; inversion H; subst; clear H.
        intros r Hr. now apply (IH _ eq_refl).
    + destruct (truthy template); [rewrite Hdocs|]; discriminate.
Qed.

Lemma fragment_resource_scanned (a k : string) :
  _is_crossplane_or_upbound_apiversion a = true ->
  scanned_resource (fragment_resource a k).
Proof. intros H. repeat split; assumption. Qed.

(** What [collect] hands on: the resources of the document, then those of
    the templates, or the placeholder when there are none. *)
Lemma collect_inv (doc : value) (key : string) (refs : list value)
      (rs : list resource) :
  collect doc = Ok (key, refs, rs) ->
  exists templ,
    Forall scanned_resource templ /\
    rs = if nonempty (_recursive_search doc ++ templ)
         then (_recursive_search doc ++ templ)%list else [placeholder].
Proof.
  unfold collect.
  destruct (get doc "spec" (VDict [])) as [spec|]; [|discriminate]. cbn [bind].
  destruct (get spec "compositeTypeRef" (VDict [])) as [cref|]; [|discriminate].
  cbn [bind].
  destruct (get cref "kind" (VStr "N/A")) as [ck|]; [|discriminate]. cbn [bind].
  destruct (get cref "apiVersion" (VStr "N/A")) as [ca|]; [|discriminate].
  cbn [bind].
  destruct (get spec "pipeline" (VList [])) as [pipeline|]; [|discriminate].
  cbn [bind].
  destruct (iter pipeline) as [steps|]; [|discriminate]. cbn [bind].
  destruct (function_names steps) as [names|]; [|discriminate]. cbn [bind].
  destruct (template_resources steps) as [templ|] eqn:Et; [|discriminate].
  cbn [bind]. intros H; inversion H; subst; clear H.
  exists templ. split; [|reflexivity].
  apply Forall_forall. intros r Hr.
  destruct (template_resources_inv _ _ Et r Hr) as (a & k & _ & _ & Hf & ->).
  now apply fragment_resource_scanned.
Qed.

(** How a successful call came about. *)
Lemma extract_ok_inv (doc : value) (file_path : string) (st st' : state)
      (rows : list row) :
  _extract_composition_details doc file_path st = (Ok rows, st') ->
  (accepted doc = false /\ rows = [] /\ st' = st)
  \/ (accepted doc = true /\
      exists key refs rs,
        collect doc = Ok (key, refs, rs) /\
        update_functions refs st = (Ok tt, st') /\
        emit_rows file_path key rs = Ok rows).
Proof.
  destruct (accepted doc) eqn:Ea.
  - rewrite (extract_accepted _ _ _ Ea).
    destruct (collect doc) as [[[key refs] rs]|] eqn:Ec; [|discriminate].
    unfold record_and_emit, bindM, lift.
    destruct (update_functions refs st) as [[[]|] s1] eqn:Eu; [|discriminate].
    intros H; inversion H; subst. right. split; [reflexivity|].
    exists key, refs, rs. auto.
  - unfold _extract_composition_details, bindM, lift, ret.
    unfold accepted in Ea.
    destruct (get doc "apiVersion" VNone) as [a|]; [|discriminate].
    destruct (get doc "kind" VNone) as [k|]; [|discriminate].
    rewrite Ea. cbn [negb]. intros H; inversion H; subst. left. auto.
Qed.

(** The rows of a successful call come from scanned resources. *)
Lemma extract_rows_scanned (doc : value) (file_path : string) (st st' : state)
      (rows : list row) :
  _extract_composition_details doc file_path st = (Ok rows, st') ->
  forall r, In r rows ->
  exists key res, scanned_resource res /\
    r = row_of file_path key res (_get_api_category (api_version res)).
Proof.
  intros H r Hr.
  destruct (extract_ok_inv _ _ _ _ _ H) as [(_ & -> & _) | (_ & key & refs & rs & Hc & _ & He)];
    [destruct Hr|].
  destruct (collect_inv _ _ _ _ Hc) as (templ & Htempl & Hrs).
  destruct (emit_rows_inv _ _ _ _ He r Hr) as (res & cat & Hin & Hcat & ->).
  exists key, res.
  assert (Hs : scanned_resource res).
  { subst rs. destruct (nonempty (_recursive_search doc ++ templ)).
    - apply in_app_or in Hin as [Hin|Hin].
      + now apply (recursive_search_scanned doc).
      + rewrite Forall_forall in Htempl. now apply Htempl.
    - destruct Hin as [<-|[]]. discriminate. }
  split; [assumption|].
  destruct Hs as (_ & Hc' & _). rewrite Hc' in Hcat. now inversion Hcat.
Qed.

Lemma accepted_kind (entries : list (scalar * value)) :
  accepted (VDict entries) = true ->
  lookup "apiVersion" entries = Some (VStr "apiextensions.crossplane.io/v1") /\
  sibling_kind entries = VStr "Composition".
Proof.
  unfold accepted, sibling_kind. simpl. unfold is_composition.
  intros H. apply negb_true_iff, orb_false_iff in H as [Ha Hk].
  split.
  - destruct (lookup "apiVersion" entries) as [v|]; [|discriminate].
    destruct v as [c| |]; try discriminate.
    destruct c as [| | |s]; try discriminate.
    simpl in Ha. apply negb_false_iff, String.eqb_eq in Ha. now subst.
  - destruct (lookup "kind" entries) as [v|]; [|discriminate].
    destruct v as [c| |]; try discriminate.
    destruct c as [| | |s]; try discriminate.
    simpl in Hk. apply negb_false_iff, String.eqb_eq in Hk. now subst.
Qed.

Lemma found_at_apiVersion (entries : list (scalar * value)) (api : string) :
  _is_crossplane_or_upbound_apiversion api = true ->
  found_at entries (SStr "apiVersion") (VStr api)
  = [{| kind_api_version := str (sibling_kind entries) ++ "_" ++ api;
        kind := sibling_kind entries;
        api_version := api;
        category := Some (_get_api_category api) |}].
Proof.
  intros H. unfold found_at, VStr, sibling_kind. cbn [key_is].
  now rewrite String.eqb_refl, H.
Qed.

Lemma function_names_spec (steps : list value) :
  function_names steps =
  if forallb step_has_name steps then Ok (map step_name steps)
  else Raise AttributeError.
Proof.
  induction steps as [|step steps IH]; [reflexivity|].
  cbn [function_names forallb map].
  destruct step as [c|items|entries]; try reflexivity.
  cbn [get step_has_name step_name].
  destruct (lookup "functionRef" entries) as [ref|]; cbn [bind].
  - destruct ref as [c|items|ref]; try reflexivity.
    cbn [get is_mapping andb bind]. rewrite IH.
    now destruct (forallb step_has_name steps).
  - cbn [get lookup andb bind]. rewrite IH.
    now destruct (forallb step_has_name steps).
Qed.

End DetailsFacts.

Module LabelFacts.
Import Text Regex Py CompositionExtractor Spec.

Lemma first_label_shape (suffix api g : string) :
  first_in (label_at suffix) api g ->
  g <> EmptyString /\ forallb_str not_dot g = true.
Proof. intros (pre & rest & _ & (post & _ & Hg & Hdots) & _). auto. Qed.

Lemma firstn_incl {A : Type} (n : nat) (l : list A) : incl (firstn n l) l.
Proof.
  unfold incl. revert n; induction l as [|x l IH]; intros [|n] y H;
    simpl in H; try tauto.
  destruct H as [H|H]; [now left | right; now apply (IH n)].
Qed.

End LabelFacts.

(** X1.  A mapping that is not a Composition, whatever else it holds, gives
    no row, raises nothing and leaves [self] untouched. *)
Theorem non_composition_is_ignored
    (entries : list (scalar * value)) (file_path : string) (st : state) :
  accepted (VDict entries) = false ->
  _extract_composition_details (VDict entries) file_path st = (Ok [], st).
Proof.
  unfold accepted, _extract_composition_details, bindM, lift, ret. simpl.
  now intros ->.
Qed.

Lemma non_composition_is_ignored_witness :
  _extract_composition_details Examples.nested_instance "object.yaml"
                               initial_state
  = (Ok [], initial_state).
Proof.
  apply (non_composition_is_ignored
           [(SStr "apiVersion", VStr "kubernetes.crossplane.io/v1alpha2");
            (SStr "kind", VStr "Object");
            (SStr "spec", Examples.mapping
               [("forProvider", Examples.mapping
                  [("manifest", Examples.mapping
                     [("apiVersion", VStr "ec2.aws.upbound.io/v1beta1");
                      ("kind", VStr "Instance")])])])]
           "object.yaml" initial_state).
  reflexivity.
Defined.

(** X2.  A document that is not a mapping, a sequence or a scalar, is
    skipped when it is falsy and otherwise makes the body of the document
    loop raise [AttributeError], [self] untouched. *)
Theorem non_mapping_document (doc : value) (file_path : string) (st : state) :
  is_mapping doc = false ->
  one_document doc file_path st
  = (if truthy doc then Raise AttributeError else Ok tt, st).
Proof.
  intros H. unfold one_document. destruct (truthy doc); [|reflexivity].
  destruct doc as [c|items|entries]; try discriminate; reflexivity.
Qed.

Lemma non_mapping_document_witness :
  one_document (VList [VStr "not"; VStr "a mapping"]) "b.yaml" initial_state
  = (Raise AttributeError, initial_state)
  /\ one_document VNone "b.yaml" initial_state = (Ok tt, initial_state).
Proof.
  split.
  - apply (non_mapping_document (VList [VStr "not"; VStr "a mapping"])
             "b.yaml" initial_state eq_refl).
  - apply (non_mapping_document VNone "b.yaml" initial_state eq_refl).
Defined.

(** X3.  Every row of a successful call carries the path it was called
    with, an apiVersion that passes the domain filter (so never the
    ["N/A"] of the placeholder), the category of that apiVersion, and the
    key [str(kind) + "_" + apiVersion]. *)
Theorem rows_are_well_formed
    (doc : value) (file_path : string) (st st' : state) (rows : list row)
    (r : row) :
  _extract_composition_details doc file_path st = (Ok rows, st') ->
  In r rows ->
  File_Path r = file_path
  /\ _is_crossplane_or_upbound_apiversion (API_Version r) = true
  /\ Category r = _get_api_category (API_Version r)
  /\ MR_Kind_API_Version r = str (Kind r) ++ "_" ++ API_Version r.
Proof.
  intros H Hr.
  destruct (DetailsFacts.extract_rows_scanned _ _ _ _ _ H r Hr)
    as (key & res & (Hf & _ & Hkey) & ->).
  repeat split; assumption.
Qed.

Lemma rows_are_well_formed_witness :
  let r := Examples.patch_and_transform_row "composition.yaml" in
  File_Path r = "composition.yaml"
  /\ _is_crossplane_or_upbound_apiversion (API_Version r) = true
  /\ Category r = _get_api_category (API_Version r)
  /\ MR_Kind_API_Version r = str (Kind r) ++ "_" ++ API_Version r.
Proof.
  exact (rows_are_well_formed Examples.patch_and_transform "composition.yaml"
           initial_state _ _ _ eq_refl (or_introl eq_refl)).
Defined.

(** X4.  A Composition always reports itself: when the call succeeds, its
    rows share one composite key, and among them is the row of kind
    ["Composition"] and apiVersion ["apiextensions.crossplane.io/v1"],
    category ["apiextensions"]. *)
Theorem composition_reports_itself
    (entries : list (scalar * value)) (file_path : string) (st st' : state)
    (rows : list row) :
  accepted (VDict entries) = true ->
  _extract_composition_details (VDict entries) file_path st = (Ok rows, st') ->
  exists key,
    (forall r, In r rows -> Composition_Kind_API_Version r = key) /\
    In {| File_Path := file_path;
          Composition_Kind_API_Version := key;
          MR_Kind_API_Version := "Composition_apiextensions.crossplane.io/v1";
          Kind := VStr "Composition";
          API_Version := "apiextensions.crossplane.io/v1";
          Category := "apiextensions" |} rows.
Proof.
  intros Hacc H.
  destruct (DetailsFacts.extract_ok_inv _ _ _ _ _ H)
    as [(Hno & _) | (_ & key & refs & rs & Hc & _ & He)]; [congruence|].
  exists key. split.
  - intros r Hr.
    now destruct (DetailsFacts.emit_rows_inv _ _ _ _ He r Hr)
      as (res & cat & _ & _ & ->).
  - destruct (DetailsFacts.collect_inv _ _ _ _ Hc) as (templ & Htempl & Hrs).
    destruct (DetailsFacts.accepted_kind _ Hacc) as (Hapi & Hkind).
    assert (Hown : In {| kind_api_version :=
                           "Composition_apiextensions.crossplane.io/v1";
                         kind := VStr "Composition";
                         api_version := "apiextensions.crossplane.io/v1";
                         category := Some "apiextensions" |}
                      (_recursive_search (VDict entries))).
    { rewrite ScannerFacts.recursive_search_dict.
      apply (ScannerFacts.search_items_In entries entries (SStr "apiVersion")
               (VStr "apiextensions.crossplane.io/v1")).
      - now apply ScannerFacts.lookup_In.
      - left. rewrite DetailsFacts.found_at_apiVersion by reflexivity.
        rewrite Hkind. left. reflexivity. }
    assert (Hne : nonempty (_recursive_search (VDict entries) ++ templ) = true).
    { destruct (_recursive_search (VDict entries)); [destruct Hown | reflexivity]. }
    rewrite Hne in Hrs. subst rs.
    rewrite DetailsFacts.emit_rows_scanned in He.
    + inversion He; subst rows.
      apply in_map_iff. eexists. split; [|apply in_or_app; left; exact Hown].
      reflexivity.
    + apply Forall_app. split; [|assumption].
      apply Forall_forall. intros r. apply SoundnessFacts.recursive_search_scanned.
Qed.

Lemma composition_reports_itself_witness :
  exists key,
    (forall r, In r [Examples.patch_and_transform_row "composition.yaml"] ->
               Composition_Kind_API_Version r = key) /\
    In {| File_Path := "composition.yaml";
          Composition_Kind_API_Version := key;
          MR_Kind_API_Version := "Composition_apiextensions.crossplane.io/v1";
          Kind := VStr "Composition";
          API_Version := "apiextensions.crossplane.io/v1";
          Category := "apiextensions" |}
       [Examples.patch_and_transform_row "composition.yaml"].
Proof.
  exact (composition_reports_itself _ "composition.yaml" initial_state _ _
           (eq_refl : accepted Examples.patch_and_transform = true) eq_refl).
Defined.

(** X5.  A Composition without a ["spec"] key: the composite key is
    ["N/A_N/A"], no function is recorded, and the rows are those of the
    resources the scanner finds in the document, one row each, in order. *)
Theorem composition_without_spec
    (entries : list (scalar * value)) (file_path : string) (st : state) :
  accepted (VDict entries) = true ->
  lookup "spec" entries = None ->
  _extract_composition_details (VDict entries) file_path st
  = (Ok (map (fun r => row_of file_path "N/A_N/A" r
                              (_get_api_category (api_version r)))
             (_recursive_search (VDict entries))),
     st).
Proof.
  intros Hacc Hspec.
  rewrite (ExtractorFacts.extract_accepted _ _ _ Hacc).
  unfold collect. cbn [get]. rewrite Hspec. cbn [bind get lookup iter].
  cbn [function_names template_resources bind].
  rewrite app_nil_r.
  destruct (ExtractorFacts.accepted_finds_itself _ Hacc) as (k & Hk).
  destruct (_recursive_search (VDict entries)) as [|r0 rs0] eqn:Es;
    [destruct Hk|].
  cbn [nonempty]. unfold record_and_emit, bindM, lift. cbn [update_functions].
  rewrite DetailsFacts.emit_rows_scanned; [reflexivity|].
  apply Forall_forall. intros r Hr. rewrite <- Es in Hr.
  now apply (SoundnessFacts.recursive_search_scanned (VDict entries)).
Qed.

Lemma composition_without_spec_witness :
  _extract_composition_details Examples.bare_composition "bare.yaml"
                               initial_state
  = (Ok [{| File_Path := "bare.yaml";
            Composition_Kind_API_Version := "N/A_N/A";
            MR_Kind_API_Version := "Composition_apiextensions.crossplane.io/v1";
            Kind := VStr "Composition";
            API_Version := "apiextensions.crossplane.io/v1";
            Category := "apiextensions" |}],
     initial_state).
Proof.
  exact (composition_without_spec
           [(SStr "apiVersion", VStr "apiextensions.crossplane.io/v1");
            (SStr "kind", VStr "Composition")]
           "bare.yaml" initial_state eq_refl eq_refl).
Defined.

(** X6.  A Composition whose ["spec"] is present but is not a mapping (an
    empty [spec:], a string, a sequence) makes the call raise
    [AttributeError], [self] untouched. *)
Theorem spec_not_mapping_raises
    (entries : list (scalar * value)) (spec : value) (file_path : string)
    (st : state) :
  accepted (VDict entries) = true ->
  lookup "spec" entries = Some spec ->
  is_mapping spec = false ->
  _extract_composition_details (VDict entries) file_path st
  = (Raise AttributeError, st).
Proof.
  intros Hacc Hspec Hmap.
  rewrite (ExtractorFacts.extract_accepted _ _ _ Hacc).
  unfold collect. cbn [get]. rewrite Hspec. cbn [bind].
  destruct spec as [c|items|e]; try discriminate; reflexivity.
Qed.

Lemma spec_not_mapping_raises_witness :
  _extract_composition_details Examples.composition_with_empty_spec
                               "empty.yaml" initial_state
  = (Raise AttributeError, initial_state).
Proof.
  exact (spec_not_mapping_raises
           [(SStr "apiVersion", VStr "apiextensions.crossplane.io/v1");
            (SStr "kind", VStr "Composition");
            (SStr "spec", VNone)]
           VNone "empty.yaml" initial_state eq_refl eq_refl eq_refl).
Defined.

(** X7.  The function names of a pipeline: one per step, the
    [functionRef.name] of the step or ["N/A"] when the step has no
    [functionRef] or the [functionRef] no [name]; [AttributeError] as soon
    as a step is not a mapping or has a [functionRef] that is not one. *)
Theorem function_names_of_steps (steps : list value) :
  function_names steps =
  if forallb step_has_name steps then Ok (map step_name steps)
  else Raise AttributeError.
Proof. apply DetailsFacts.function_names_spec. Qed.

(** X8.  Every resource that comes from the inline templates of a pipeline
    is built from a parsed fragment: its apiVersion and kind are clean
    scalars, the apiVersion passes the domain filter, and it carries the
    category of its apiVersion like a resource of the document. *)
Theorem template_resources_are_fragments
    (steps : list value) (rs : list resource) (r : resource) :
  template_resources steps = Ok rs ->
  In r rs ->
  exists api kind,
    clean_value api /\ clean_value kind /\
    _is_crossplane_or_upbound_apiversion api = true /\
    r = fragment_resource api kind.
Proof. intros H. exact (DetailsFacts.template_resources_inv steps rs H r). Qed.

Lemma template_resources_are_fragments_witness :
  exists api kind,
    clean_value api /\ clean_value kind /\
    _is_crossplane_or_upbound_apiversion api = true /\
    {| kind_api_version := "Bucket_s3.aws.upbound.io/v1beta1";
       kind := VStr "Bucket";
       api_version := "s3.aws.upbound.io/v1beta1";
       category := Some "aws" |} = fragment_resource api kind.
Proof.
  exact (template_resources_are_fragments Examples.template_pipeline _ _
           eq_refl (or_introl eq_refl)).
Defined.

(** X9.  The scanner emits nothing else than what its contract says: every
    resource it returns comes from an ["apiVersion"] item of a mapping
    reachable in the document, whose string value passes the domain filter,
    with the ["kind"] of that mapping and the category of that
    apiVersion. *)
Theorem recursive_search_sound (doc : value) (r : resource) :
  In r (_recursive_search doc) ->
  exists entries api,
    reachable doc (VDict entries) /\
    In (SStr "apiVersion", VStr api) entries /\
    _is_crossplane_or_upbound_apiversion api = true /\
    r = {| kind_api_version := str (sibling_kind entries) ++ "_" ++ api;
           kind := sibling_kind entries;
           api_version := api;
           category := Some (_get_api_category api) |}.
Proof. apply SoundnessFacts.recursive_search_inv. Qed.

Lemma recursive_search_sound_witness :
  exists entries api,
    reachable Examples.nested_instance (VDict entries) /\
    In (SStr "apiVersion", VStr api) entries /\
    _is_crossplane_or_upbound_apiversion api = true /\
    {| kind_api_version := "Instance_ec2.aws.upbound.io/v1beta1";
       kind := VStr "Instance";
       api_version := "ec2.aws.upbound.io/v1beta1";
       category := Some "aws" |}
    = {| kind_api_version := str (sibling_kind entries) ++ "_" ++ api;
         kind := sibling_kind entries;
         api_version := api;
         category := Some (_get_api_category api) |}.
Proof.
  apply (recursive_search_sound Examples.nested_instance).
  right. left. reflexivity.
Defined.

(** X10.  [_extract_template_content] never raises, whatever it is given.
    For anything but a string it returns the empty list; every fragment it
    returns is a dict of exactly ["apiVersion"] and ["kind"], both clean
    scalars. *)
Theorem extract_template_content_shape (template : value) :
  exists docs,
    _extract_template_content template = Ok docs /\
    (is_text template = false -> docs = []) /\
    (forall doc, In doc docs ->
       exists api kind,
         doc = api_kind_dict api kind /\ clean_value api /\ clean_value kind).
Proof.
  destruct (DetailsFacts.extract_template_shape template) as (docs & Hdocs & Hshape).
  exists docs. split; [assumption|]. split; [|assumption].
  intros Htext. rewrite ScanFacts.extract_template_not_text in Hdocs.
  - now inversion Hdocs.
  - intros text ->. discriminate.
Qed.

(** X11.  The extractor returns at most as many fragments as the text has
    lines that hold ["apiVersion:"] and are not comments; a text without
    such a line gives nothing. *)
Theorem extract_template_content_bounded (text : string) :
  exists docs,
    _extract_template_content (VStr text) = Ok docs /\
    List.length docs <= marker_count (split_lines text).
Proof.
  destruct (ScanFacts.extract_template_text text)
    as (st & _ & (_ & Hflag & _) & Hm & Hres).
  eexists; split; [exact Hres|].
  eapply Nat.le_trans; [apply ScanFacts.filter_length_le|].
  unfold scan_measure in Hm. rewrite Hflag in Hm.
  destruct (nonempty (current_doc st)); [rewrite length_app; simpl|]; lia.
Qed.

(** X12.  However far the line loop has got, it has not raised
    ([lines.index(line)] always finds the line), the flag [in_yaml] is set
    exactly when the buffer holds lines, and the buffer holds no comment
    line. *)
Theorem line_loop_invariant (lines : list string) (n : nat) :
  exists st,
    for_lines lines (firstn n lines) scan_start = Ok st /\
    in_yaml st = nonempty (current_doc st) /\
    Forall (fun line => is_comment line = false) (current_doc st).
Proof.
  destruct (ScanFacts.for_lines_steps lines (firstn n lines) scan_start
              (LabelFacts.firstn_incl n lines) ScanFacts.scan_start_inv)
    as (st & Hst & (_ & Hflag & Hbuf) & _).
  exists st. auto.
Qed.

(** X13.  The category is never empty and never holds a dot. *)
Theorem category_is_a_label (api_version : string) :
  _get_api_category api_version <> EmptyString
  /\ forallb_str not_dot (_get_api_category api_version) = true.
Proof.
  unfold _get_api_category.
  destruct (String.eqb api_version ""); [split; [discriminate | reflexivity]|].
  destruct (re_search crossplane_pattern api_version) as [g|] eqn:Ec.
  - apply ParserFacts.crossplane_search in Ec.
    now apply (LabelFacts.first_label_shape _ _ _ Ec).
  - destruct (re_search upbound_pattern api_version) as [g|] eqn:Eu.
    + apply ParserFacts.upbound_search in Eu.
      now apply (LabelFacts.first_label_shape _ _ _ Eu).
    + split; [discriminate | reflexivity].
Qed.

(** *** The run as a whole *)

Module RunFacts.
Import Text Regex Py CompositionExtractor Spec ExtractorFacts.

Lemma extract_catalog (doc : value) (file_path : string) (st st1 : state)
      (r : result (list row)) :
  _extract_composition_details doc file_path st = (r, st1) ->
  forall name, in_catalog name st = true -> in_catalog name st1 = true.
Proof.
  unfold _extract_composition_details, bindM, lift, ret.
  destruct (get doc "apiVersion" VNone) as [a|];
    [|intros H; inversion H; subst; auto].
  destruct (get doc "kind" VNone) as [k|];
    [|intros H; inversion H; subst; auto].
  destruct (negb (is_composition a k)); [intros H; inversion H; subst; auto|].
  destruct (collect doc) as [[[key refs] rs]|e];
    [|intros H; inversion H; subst; auto].
  unfold record_and_emit, bindM, lift.
  destruct (update_functions refs st) as [u s1] eqn:E.
  destruct (update_functions_frame _ _ _ _ E) as (_ & _ & Hc).
  destruct u; intros H; inversion H; subst; auto.
Qed.

(** What one document does to [self]. *)
Lemma one_document_frame (doc : value) (file_path : string) (st st1 : state)
      (r : result unit) :
  one_document doc file_path st = (r, st1) ->
  error_log st1 = error_log st
  /\ (forall name, in_catalog name st = true -> in_catalog name st1 = true)
  /\ exists kept,
       extracted_data st1 = (extracted_data st ++ kept)%list /\
       forall row, In row kept -> File_Path row = file_path.
Proof.
  unfold one_document, bindM, extend, ret.
  destruct (truthy doc).
  - destruct (_extract_composition_details doc file_path st) as [[rows|e] s]
      eqn:E; destruct (extract_frame _ _ _ _ _ E) as (Hd & Hl);
      pose proof (extract_catalog _ _ _ _ _ E) as Hc;
      intros H; inversion H; subst; simpl.
    + repeat split; auto. exists rows. rewrite Hd. split; [reflexivity|].
      intros row Hrow.
      now destruct (DetailsFacts.extract_rows_scanned _ _ _ _ _ E row Hrow)
        as (key & res & _ & ->).
    + repeat split; auto. exists []. rewrite app_nil_r. split; [auto|].
      intros row [].
  - intros H; inversion H; subst. repeat split; auto.
    exists []. rewrite app_nil_r. split; [auto | intros row []].
Qed.

Lemma for_documents_frame (docs : list value) (m : bool) (file_path : string)
      (st st1 : state) (r : result unit) :
  for_documents docs m file_path st = (r, st1) ->
  error_log st1 = error_log st
  /\ (forall name, in_catalog name st = true -> in_catalog name st1 = true)
  /\ exists kept,
       extracted_data st1 = (extracted_data st ++ kept)%list /\
       forall row, In row kept -> File_Path row = file_path.
Proof.
  revert st; induction docs as [|doc docs IH]; intros st; simpl.
  - destruct m; intros H; inversion H; subst; repeat split; auto;
      exists []; rewrite app_nil_r; (split; [auto | intros row []]).
  - unfold bindM.
    destruct (one_document doc file_path st) as [[u|e] s] eqn:E;
      destruct (one_document_frame _ _ _ _ _ E) as (Hl1 & Hc1 & k1 & Hk1 & Hp1).
    + intros H. destruct (IH _ H) as (Hl2 & Hc2 & k2 & Hk2 & Hp2).
      split; [congruence|]. split; [auto|].
      exists (k1 ++ k2)%list. rewrite Hk2, Hk1, app_assoc. split; [reflexivity|].
      intros row Hrow. apply in_app_or in Hrow as [Hrow|Hrow]; auto.
    + intros H; inversion H; subst. split; [auto|]. split; [auto|].
      exists k1. auto.
Qed.

Lemma process_file_grows (st : state) (file : entry) :
  grown_from [file] st (process_file st file).
Proof.
  unfold process_file, attempt, lift.
  destruct (snd file) as [|docs m] eqn:Ef.
  - (* unreadable *)
    split; [|split].
    + exists []. simpl. rewrite app_nil_r. split; [reflexivity | intros r []].
    + exists [(fst file, OSError)]. simpl. split; [reflexivity|].
      split; [lia|]. intros e [<-|[]]. exists file. simpl. auto.
    + auto.
  - destruct (for_documents docs m (fst file) st) as [[u|e] s] eqn:E;
      destruct (for_documents_frame _ _ _ _ _ _ E) as (Hl & Hc & k & Hk & Hp).
    + split; [|split].
      * exists k. split; [assumption|]. intros r Hr. exists file.
        split; [now left | symmetry; auto].
      * exists []. rewrite app_nil_r. split; [assumption|].
        split; [simpl; lia | intros e' []].
      * assumption.
    + split; [|split].
      * exists k. simpl. split; [assumption|]. intros r Hr. exists file.
        split; [now left | symmetry; auto].
      * exists [(fst file, e)]. simpl. rewrite Hl. split; [reflexivity|].
        split; [lia|]. intros e' [<-|[]]. exists file. simpl. auto.
      * intros name Hn. apply Hc in Hn. now destruct name.
Qed.

Lemma grown_from_refl (st : state) : grown_from [] st st.
Proof.
  split; [|split].
  - exists []. rewrite app_nil_r. split; [reflexivity | intros r []].
  - exists []. rewrite app_nil_r. split; [reflexivity|].
    split; [simpl; lia | intros e []].
  - auto.
Qed.

Lemma grown_from_trans (file : entry) (files : list entry) (st s1 s2 : state) :
  grown_from [file] st s1 -> grown_from files s1 s2 ->
  grown_from (file :: files) st s2.
Proof.
  intros ((k1 & Hk1 & Hp1) & (l1 & Hl1 & Hn1 & Hq1) & Hc1)
         ((k2 & Hk2 & Hp2) & (l2 & Hl2 & Hn2 & Hq2) & Hc2).
  split; [|split].
  - exists (k1 ++ k2)%list. rewrite Hk2, Hk1, app_assoc. split; [reflexivity|].
    intros r Hr. apply in_app_or in Hr as [Hr|Hr].
    + destruct (Hp1 r Hr) as (f & [Hfile|[]] & Hf). exists f.
      split; [left; exact Hfile | auto].
    + destruct (Hp2 r Hr) as (f & Hin & Hf). exists f. split; [now right | auto].
  - exists (l1 ++ l2)%list. rewrite Hl2, Hl1, app_assoc. split; [reflexivity|].
    split; [rewrite length_app; simpl in *; lia|].
    intros e He. apply in_app_or in He as [He|He].
    + destruct (Hq1 e He) as (f & [Hfile|[]] & Hf). exists f.
      split; [left; exact Hfile | auto].
    + destruct (Hq2 e He) as (f & Hin & Hf). exists f. split; [now right | auto].
  - auto.
Qed.

Lemma fold_process_grows (files : list entry) (st : state) :
  grown_from files st (fold_left process_file files st).
Proof.
  revert st; induction files as [|file files IH]; intros st; simpl.
  - apply grown_from_refl.
  - eapply grown_from_trans; [apply process_file_grows | apply IH].
Qed.

Lemma run_grows (found : list entry) (st : state) :
  grown_from (filter is_yaml_file found) st (extract_compositions found st).
Proof. apply fold_process_grows. Qed.

End RunFacts.

(** X14.  A run only appends: the rows and the log lines present before are
    still there, in place, with new ones behind them, and no function name
    leaves the catalog. *)
Theorem run_only_appends (found : list entry) (st : state) :
  exists rows log,
    extracted_data (extract_compositions found st)
    = (extracted_data st ++ rows)%list /\
    error_log (extract_compositions found st) = (error_log st ++ log)%list /\
    forall name, in_catalog name st = true ->
                 in_catalog name (extract_compositions found st) = true.
Proof.
  destruct (RunFacts.run_grows found st)
    as ((rows & Hrows & _) & (log & Hlog & _) & Hc).
  exists rows, log. auto.
Qed.

(** X15.  Every row of a run carries the path of one of the entries found
    whose name ends in [.yaml] or [.yml]. *)
Theorem rows_trace_to_yaml_files (found : list entry) (r : row) :
  In r (extracted_data (extract_compositions found initial_state)) ->
  exists file, In file found /\ is_yaml_file file = true /\
               fst file = File_Path r.
Proof.
  destruct (RunFacts.run_grows found initial_state)
    as ((rows & Hrows & Hfrom) & _).
  rewrite Hrows. simpl. intros Hr.
  destruct (Hfrom r Hr) as (f & Hin & Hf). apply filter_In in Hin as [Hin Hy].
  exists f. auto.
Qed.

Lemma rows_trace_to_yaml_files_witness :
  exists file, In file Examples.three_files /\ is_yaml_file file = true /\
               fst file = "c.yml".
Proof.
  exact (rows_trace_to_yaml_files Examples.three_files
           (Examples.patch_and_transform_row "c.yml")
           (or_intror (or_intror (or_introl eq_refl)))).
Defined.


(** X17.  An entry whose name ends neither in [.yaml] nor in [.yml] plays
    no part in the run. *)
Theorem non_yaml_entries_ignored
    (before after : list entry) (file : entry) (st : state) :
  is_yaml_file file = false ->
  extract_compositions (before ++ file :: after) st
  = extract_compositions (before ++ after) st.
Proof.
  intros H. unfold extract_compositions.
  rewrite !filter_app. simpl. now rewrite H.
Qed.

Lemma non_yaml_entries_ignored_witness :
  extract_compositions
    ([("a.yaml", Readable [Examples.patch_and_transform] false)]
     ++ ("notes.yaml.bak", Unreadable)
     :: [("c.yml", Readable [Examples.patch_and_transform] false)])
    initial_state
  = extract_compositions
      ([("a.yaml", Readable [Examples.patch_and_transform] false)]
       ++ [("c.yml", Readable [Examples.patch_and_transform] false)])
      initial_state.
Proof.
  apply (non_yaml_entries_ignored _ _ ("notes.yaml.bak", Unreadable)).
  reflexivity.
Defined.

(** *** More on the statistics and the file mapping *)

Module AggregationFacts.
Import Text Regex Py CompositionExtractor Spec StatisticsFacts.


Lemma add_to_group_nonempty (k : group_key) (r : row) (gs : groups) :
  Forall (fun g => snd g <> []) gs ->
  Forall (fun g => snd g <> []) (add_to_group k r gs).
Proof.
  induction 1 as [|[k' members] gs Hg Hgs IH]; simpl.
  - constructor; [discriminate | constructor].
  - destruct (group_key_eqb k k'); constructor; auto.
    simpl. intros Hnil. now destruct members.
Qed.

Lemma groupby_nonempty (data : list row) (gs gs' : groups) :
  groupby data gs = Ok gs' ->
  Forall (fun g => snd g <> []) gs -> Forall (fun g => snd g <> []) gs'.
Proof.
  revert gs; induction data as [|r data IH]; intros gs; simpl.
  - intros H; inversion H; subst. auto.
  - destruct (key_of r) as [[k|]|]; cbn [bind]; try discriminate.
    + intros H Hgs. apply (IH _ H). now apply add_to_group_nonempty.
    + intros H Hgs. now apply (IH _ H).
Qed.

Lemma In_insert_desc (s x : statistic) (l : list statistic) :
  In s (insert_desc x l) <-> s = x \/ In s l.
Proof.
  induction l as [|t l IH]; simpl; [intuition|].
  destruct (Total_Occurrences t <=? Total_Occurrences x)%nat; simpl;
    [intuition | rewrite IH; intuition].
Qed.

Lemma In_sort_values (s : statistic) (l : list statistic) :
  In s (sort_values l) <-> In s l.
Proof.
  induction l as [|x l IH]; simpl; [tauto|].
  rewrite In_insert_desc, IH. intuition.
Qed.

Lemma descending_cons (a b : nat) (l : list nat) :
  descending (a :: b :: l) = ((b <=? a)%nat && descending (b :: l)).
Proof. reflexivity. Qed.

Lemma descending_insert (x : statistic) (l : list statistic) :
  descending (map Total_Occurrences l) = true ->
  descending (map Total_Occurrences (insert_desc x l)) = true.
Proof.
  induction l as [|t l IH]; [reflexivity|].
  intros H. cbn [insert_desc].
  destruct (Total_Occurrences t <=? Total_Occurrences x)%nat eqn:E.
  - cbn [map] in *. now rewrite descending_cons, E.
  - apply Nat.leb_gt in E.
    assert (Htail : descending (map Total_Occurrences l) = true).
    { destruct l as [|u l]; [reflexivity|]. cbn [map] in H.
      rewrite descending_cons in H. now apply andb_true_iff in H as [_ H]. }
    specialize (IH Htail).
    destruct (insert_desc x l) as [|v rest] eqn:Ei; [reflexivity|].
    cbn [map] in *. rewrite descending_cons, IH, andb_true_r.
    apply Nat.leb_le.
    destruct l as [|u l]; cbn [insert_desc] in Ei.
    + inversion Ei; subst. lia.
    + destruct (Total_Occurrences u <=? Total_Occurrences x)%nat;
        inversion Ei; subst; [lia|].
      cbn [map] in H. rewrite descending_cons in H.
      apply andb_true_iff in H as [H _]. now apply Nat.leb_le in H.
Qed.

Lemma descending_sort_values (l : list statistic) :
  descending (map Total_Occurrences (sort_values l)) = true.
Proof.
  induction l as [|x l IH]; [reflexivity|]. simpl. now apply descending_insert.
Qed.

Lemma nunique_le (column : list string) :
  nunique column <= List.length column.
Proof.
  unfold nunique. induction column as [|x column IH]; simpl; [lia|].
  destruct (in_dec string_dec x column); simpl; lia.
Qed.

Lemma nunique_pos (column : list string) :
  column <> [] -> 1 <= nunique column.
Proof.
  unfold nunique. destruct column as [|x column]; [congruence|]. intros _.
  assert (H : In x (nodup string_dec (x :: column)))
    by (apply nodup_In; now left).
  destruct (nodup string_dec (x :: column)); [destruct H | simpl; lia].
Qed.

Lemma aggregate_bounds (g : group_key * list row) :
  snd g <> [] ->
  1 <= Found_in_N_Files (aggregate g) <= Total_Occurrences (aggregate g)
  /\ 1 <= Used_by_N_Compositions (aggregate g) <= Total_Occurrences (aggregate g).
Proof.
  destruct g as [[[[mr k] api] cat] members]. simpl. intros H.
  assert (Hf : map File_Path members <> []) by (now destruct members).
  assert (Hc : map Composition_Kind_API_Version members <> [])
    by (now destruct members).
  pose proof (nunique_le (map File_Path members)).
  pose proof (nunique_le (map Composition_Kind_API_Version members)).
  pose proof (nunique_pos _ Hf). pose proof (nunique_pos _ Hc).
  rewrite !length_map in *. lia.
Qed.

(** *** One group per key *)
















(** *** The file mapping *)

Lemma count_value_total (x : string) (counts : list (string * nat)) :
  counts_total (count_value x counts) = S (counts_total counts).
Proof.
  unfold counts_total. induction counts as [|[y n] counts IH]; simpl;
    [reflexivity|].
  destruct (String.eqb x y); simpl; [lia | rewrite IH; lia].
Qed.

Lemma count_value_positive (x : string) (counts : list (string * nat)) :
  Forall (fun c => 1 <= snd c) counts ->
  Forall (fun c => 1 <= snd c) (count_value x counts).
Proof.
  induction 1 as [|[y n] counts Hy Hcounts IH]; simpl.
  - constructor; [simpl; lia | constructor].
  - destruct (String.eqb x y); constructor; auto. simpl in *; lia.
Qed.

Lemma tally_from (column : list string) (counts : list (string * nat)) :
  Forall (fun c => 1 <= snd c) counts ->
  counts_total (fold_left (fun cs x => count_value x cs) column counts)
  = counts_total counts + List.length column
  /\ Forall (fun c => 1 <= snd c)
            (fold_left (fun cs x => count_value x cs) column counts).
Proof.
  revert counts; induction column as [|x column IH]; intros counts H; simpl.
  - split; [lia | assumption].
  - destruct (IH _ (count_value_positive x counts H)) as (Ht & Hp).
    rewrite Ht, count_value_total. split; [lia | assumption].
Qed.

Lemma insert_count_facts (c : string * nat) (sorted : list (string * nat)) :
  counts_total (insert_count c sorted) = snd c + counts_total sorted
  /\ List.length (insert_count c sorted) = S (List.length sorted)
  /\ (1 <= snd c -> Forall (fun d => 1 <= snd d) sorted ->
      Forall (fun d => 1 <= snd d) (insert_count c sorted)).
Proof.
  unfold counts_total. induction sorted as [|d sorted (IH1 & IH2 & IH3)]; simpl.
  - repeat split; auto.
  - destruct (snd d <=? snd c)%nat; simpl.
    + repeat split; auto.
    + rewrite IH1, IH2. repeat split; [lia|].
      intros Hc Hall. inversion Hall; subst. constructor; auto.
Qed.

Lemma sorted_counts_facts (counts : list (string * nat)) :
  Forall (fun c => 1 <= snd c) counts ->
  counts_total (fold_right insert_count [] counts) = counts_total counts
  /\ List.length (fold_right insert_count [] counts) = List.length counts
  /\ Forall (fun c => 1 <= snd c) (fold_right insert_count [] counts).
Proof.
  induction 1 as [|c counts Hc _ (IH1 & IH2 & IH3)]; simpl.
  - repeat split; constructor.
  - destruct (insert_count_facts c (fold_right insert_count [] counts))
      as (H1 & H2 & H3).
    rewrite H1, H2, IH1, IH2. repeat split; auto.
Qed.

Lemma positive_counts_length (counts : list (string * nat)) :
  Forall (fun c => 1 <= snd c) counts ->
  List.length counts <= counts_total counts.
Proof.
  unfold counts_total. induction 1 as [|c counts Hc _ IH]; simpl; lia.
Qed.

Lemma value_counts_facts (column : list string) :
  counts_total (value_counts column) = List.length column
  /\ List.length (value_counts column) <= List.length column
  /\ (column <> [] -> 1 <= List.length (value_counts column)).
Proof.
  unfold value_counts, tally.
  destruct (tally_from column [] (Forall_nil _)) as (Ht & Hp).
  destruct (sorted_counts_facts _ Hp) as (H1 & H2 & H3).
  pose proof (positive_counts_length _ H3) as Hlen.
  rewrite H1, Ht in *. simpl in *.
  repeat split; [assumption|].
  intros Hne.
  destruct (fold_right insert_count []
              (fold_left (fun cs x => count_value x cs) column [])) eqn:E.
  - unfold counts_total in H1. simpl in H1. destruct column; [congruence | discriminate].
  - simpl. lia.
Qed.

Lemma mapping_entry_facts (g : string * list row) :
  Mapping_Kind_API_Version (mapping_entry g) = fst g
  /\ Mapping_Total_Occurrences (mapping_entry g) = List.length (snd g)
  /\ Total_Files (mapping_entry g) <= Mapping_Total_Occurrences (mapping_entry g)
  /\ (snd g <> [] -> 1 <= Total_Files (mapping_entry g)).
Proof.
  destruct g as [mr group]. unfold mapping_entry. cbn.
  destruct (value_counts_facts (map File_Path group)) as (H1 & H2 & H3).
  fold (counts_total (value_counts (map File_Path group))).
  rewrite H1, length_map in *. repeat split; auto.
  intros Hne. apply H3. now destruct group.
Qed.

(** The groups after [add_to_mr_group]. *)
Lemma add_to_mr_group_total (key : string) (r : row)
      (gs : list (string * list row)) :
  mr_members_total (add_to_mr_group key r gs) = S (mr_members_total gs).
Proof.
  unfold mr_members_total.
  induction gs as [|[key' members] gs IH]; simpl; [reflexivity|].
  destruct (String.eqb key key'); simpl.
  - rewrite length_app; simpl; lia.
  - rewrite IH; lia.
Qed.

Lemma add_to_mr_group_nonempty (key : string) (r : row)
      (gs : list (string * list row)) :
  Forall (fun g => snd g <> []) gs ->
  Forall (fun g => snd g <> []) (add_to_mr_group key r gs).
Proof.
  induction 1 as [|[key' members] gs Hg Hgs IH]; simpl.
  - constructor; [discriminate | constructor].
  - destruct (String.eqb key key'); constructor; auto.
    simpl. intros Hnil. now destruct members.
Qed.

(** The keys: unchanged when the key is there, one more at the end when it
    is new. *)
Lemma add_to_mr_group_keys (key : string) (r : row)
      (gs : list (string * list row)) :
  map fst (add_to_mr_group key r gs)
  = if in_dec string_dec key (map fst gs) then map fst gs
    else (map fst gs ++ [key])%list.
Proof.
  induction gs as [|[key' members] gs IH]; [reflexivity|].
  cbn [add_to_mr_group].
  destruct (String.eqb key key') eqn:E.
  - apply String.eqb_eq in E; subst key'.
    destruct (in_dec string_dec key (map fst ((key, members) :: gs)))
      as [_|Hn]; [reflexivity|].
    exfalso. apply Hn. now left.
  - apply String.eqb_neq in E. cbn [map fst]. rewrite IH.
    destruct (in_dec string_dec key (map fst gs)) as [Hin|Hn];
      destruct (in_dec string_dec key (key' :: map fst gs)) as [Hin'|Hn'];
      try reflexivity.
    + exfalso. apply Hn'. now right.
    + destruct Hin' as [Heq|Hin']; [congruence | contradiction].
Qed.

Lemma NoDup_snoc {A : Type} (l : list A) (x : A) :
  NoDup l -> ~ In x l -> NoDup (l ++ [x]).
Proof.
  induction 1 as [|y l Hy Hl IH]; simpl; intros Hx.
  - constructor; [intros [] | constructor].
  - constructor.
    + intros Hin. apply in_app_or in Hin as [Hin|[Hin|[]]];
        [contradiction | subst; apply Hx; now left].
    + apply IH. intros Hin. apply Hx. now right.
Qed.

Lemma add_to_mr_group_keys_facts (key : string) (r : row)
      (gs : list (string * list row)) :
  In key (map fst (add_to_mr_group key r gs))
  /\ incl (map fst gs) (map fst (add_to_mr_group key r gs))
  /\ (NoDup (map fst gs) -> NoDup (map fst (add_to_mr_group key r gs))).
Proof.
  rewrite add_to_mr_group_keys.
  destruct (in_dec string_dec key (map fst gs)) as [Hin|Hn].
  - split; [assumption|]. split; [apply incl_refl | auto].
  - split; [apply in_or_app; right; now left|].
    split; [apply incl_appl, incl_refl|].
    intros Hnd. now apply NoDup_snoc.
Qed.

Lemma mr_groups_from (data : list row) (gs : list (string * list row)) :
  let gs' := fold_left (fun gs r => add_to_mr_group (MR_Kind_API_Version r) r gs)
                       data gs in
  mr_members_total gs' = mr_members_total gs + List.length data
  /\ (Forall (fun g => snd g <> []) gs -> Forall (fun g => snd g <> []) gs')
  /\ incl (map fst gs) (map fst gs')
  /\ (forall r, In r data -> In (MR_Kind_API_Version r) (map fst gs'))
  /\ (NoDup (map fst gs) -> NoDup (map fst gs')).
Proof.
  revert gs; induction data as [|x data IH]; intros gs; cbn [fold_left].
  - cbv zeta. split; [simpl; lia|]. split; [auto|]. split; [apply incl_refl|].
    split; [intros r [] | auto].
  - destruct (add_to_mr_group_keys_facts (MR_Kind_API_Version x) x gs)
      as (A3 & A4 & A5).
    destruct (IH (add_to_mr_group (MR_Kind_API_Version x) x gs))
      as (B1 & B2 & B3 & B4 & B5).
    cbv zeta in *. rewrite B1, add_to_mr_group_total.
    split; [simpl; lia|].
    split; [intros H; now apply B2, add_to_mr_group_nonempty|].
    split; [eapply incl_tran; eauto|].
    split; [|intros H; now apply B5, A5].
    intros r [<-|Hr]; [now apply B3 | now apply B4].
Qed.

Lemma insert_group_perm (g : string * list row)
      (sorted : list (string * list row)) :
  Permutation (insert_group g sorted) (g :: sorted).
Proof.
  induction sorted as [|h sorted IH]; simpl; [apply Permutation_refl|].
  destruct (String.leb (fst g) (fst h)); [apply Permutation_refl|].
  eapply Permutation_trans; [apply perm_skip, IH | apply perm_swap].
Qed.

Lemma sort_groups_perm (gs : list (string * list row)) :
  Permutation (sort_groups gs) gs.
Proof.
  induction gs as [|g gs IH]; simpl; [apply Permutation_refl|].
  eapply Permutation_trans; [apply insert_group_perm | now apply perm_skip].
Qed.

Lemma mr_members_total_perm (gs gs' : list (string * list row)) :
  Permutation gs gs' -> mr_members_total gs = mr_members_total gs'.
Proof.
  unfold mr_members_total.
  induction 1; simpl; try lia.
Qed.

Lemma mapping_total (gs : list (string * list row)) :
  list_sum (map Mapping_Total_Occurrences (map mapping_entry gs))
  = mr_members_total gs.
Proof.
  unfold mr_members_total. induction gs as [|g gs IH]; simpl; [reflexivity|].
  destruct (mapping_entry_facts g) as (_ & -> & _). now rewrite IH.
Qed.

Lemma mapping_keys (gs : list (string * list row)) :
  map Mapping_Kind_API_Version (map mapping_entry gs) = map fst gs.
Proof.
  induction gs as [|g gs IH]; simpl; [reflexivity|].
  destruct (mapping_entry_facts g) as (-> & _). now rewrite IH.
Qed.

End AggregationFacts.

Module ReportFacts.
Import Text Regex Py CompositionExtractor Spec StatisticsFacts AggregationFacts.

Lemma mr_statistics_inv (st : state) (stats : list statistic) :
  _get_mr_statistics st = Ok stats ->
  exists gs,
    groupby (extracted_data st) [] = Ok gs /\
    stats = sort_values (map aggregate gs).
Proof.
  unfold _get_mr_statistics.
  destruct (extracted_data st) as [|r data] eqn:E; cbn [nonempty negb].
  - intros H; inversion H; subst. exists []. split; reflexivity.
  - destruct (groupby (r :: data) []) as [gs|] eqn:Eg; [|discriminate].
    cbn [bind]. intros H; inversion H; subst. exists gs. split; reflexivity.
Qed.

Lemma file_mapping_groups (st : state) :
  _get_file_mapping st
  = map mapping_entry (sort_groups (mr_groups (extracted_data st))).
Proof.
  unfold _get_file_mapping.
  destruct (extracted_data st); reflexivity.
Qed.

End ReportFacts.



(** X19.  The statistics come out sorted by ["Total Occurrences"], largest
    first. *)
Theorem mr_statistics_sorted (st : state) (stats : list statistic) :
  _get_mr_statistics st = Ok stats ->
  descending (map Total_Occurrences stats) = true.
Proof.
  intros H. destruct (ReportFacts.mr_statistics_inv _ _ H) as (gs & _ & ->).
  apply AggregationFacts.descending_sort_values.
Qed.

Lemma mr_statistics_sorted_witness :
  map Total_Occurrences (Examples.statistics_of Examples.twice_nested_run)
  = [2; 2; 1]
  /\ descending
       (map Total_Occurrences (Examples.statistics_of Examples.twice_nested_run))
     = true.
Proof.
  split; [reflexivity|].
  exact (mr_statistics_sorted Examples.twice_nested_run
           (Examples.statistics_of Examples.twice_nested_run) eq_refl).
Defined.

(** X20.  In every statistics row the number of files and the number of
    Compositions are at least one and at most the number of occurrences. *)
Theorem mr_statistics_bounds
    (st : state) (stats : list statistic) (s : statistic) :
  _get_mr_statistics st = Ok stats ->
  In s stats ->
  1 <= Found_in_N_Files s <= Total_Occurrences s
  /\ 1 <= Used_by_N_Compositions s <= Total_Occurrences s.
Proof.
  intros H Hs. destruct (ReportFacts.mr_statistics_inv _ _ H) as (gs & Hgs & ->).
  apply (proj1 (AggregationFacts.In_sort_values _ _)) in Hs.
  apply in_map_iff in Hs as (g & <- & Hg).
  apply AggregationFacts.aggregate_bounds.
  pose proof (AggregationFacts.groupby_nonempty _ _ _ Hgs (Forall_nil _)) as Hne.
  rewrite Forall_forall in Hne. now apply Hne.
Qed.

Lemma mr_statistics_bounds_witness :
  let s := {| Kind_API_Version := "Composition_apiextensions.crossplane.io/v1";
              Stat_Kind := SStr "Composition";
              Stat_API_Version := "apiextensions.crossplane.io/v1";
              Stat_Category := "apiextensions";
              Total_Occurrences := 3;
              Found_in_N_Files := 3;
              Used_by_N_Compositions := 1 |} in
  1 <= Found_in_N_Files s <= Total_Occurrences s
  /\ 1 <= Used_by_N_Compositions s <= Total_Occurrences s.
Proof.
  exact (mr_statistics_bounds
           (extract_compositions Examples.three_files initial_state) _ _
           eq_refl (or_introl eq_refl)).
Defined.



(** X22.  The file mapping never loses a row: its ["Total Occurrences"]
    add up to the number of extracted rows, whatever their ["Kind"]. *)
Theorem file_mapping_total (st : state) :
  list_sum (map Mapping_Total_Occurrences (_get_file_mapping st))
  = List.length (extracted_data st).
Proof.
  rewrite ReportFacts.file_mapping_groups, AggregationFacts.mapping_total.
  rewrite (AggregationFacts.mr_members_total_perm _ _
             (AggregationFacts.sort_groups_perm _)).
  unfold mr_groups.
  now destruct (AggregationFacts.mr_groups_from (extracted_data st) [])
    as (-> & _).
Qed.

(** X23.  In every entry of the file mapping the number of files is at
    least one and at most the number of occurrences. *)
Theorem file_mapping_bounds (st : state) (e : file_mapping_entry) :
  In e (_get_file_mapping st) ->
  1 <= Total_Files e <= Mapping_Total_Occurrences e.
Proof.
  rewrite ReportFacts.file_mapping_groups. intros He.
  apply in_map_iff in He as (g & <- & Hg).
  apply (Permutation_in _ (AggregationFacts.sort_groups_perm _)) in Hg.
  destruct (AggregationFacts.mapping_entry_facts g) as (_ & _ & Hle & Hpos).
  split; [|assumption]. apply Hpos.
  destruct (AggregationFacts.mr_groups_from (extracted_data st) [])
    as (_ & Hne & _).
  specialize (Hne (Forall_nil _)). rewrite Forall_forall in Hne.
  now apply Hne.
Qed.

Lemma file_mapping_bounds_witness :
  let e := {| Mapping_Kind_API_Version :=
                "Composition_apiextensions.crossplane.io/v1";
              Total_Files := 3;
              Mapping_Total_Occurrences := 3;
              File_Locations :=
                Examples.lines_of ["a.yaml (1 occurrences)";
                                   "b.yaml (1 occurrences)";
                                   "c.yml (1 occurrences)"] |} in
  1 <= Total_Files e <= Mapping_Total_Occurrences e.
Proof.
  exact (file_mapping_bounds
           (extract_compositions Examples.three_files initial_state) _
           (or_introl eq_refl)).
Defined.

(** X24.  The file mapping holds one entry per ["Kind/API Version"]: no
    key appears twice, and the key of every extracted row appears. *)
Theorem file_mapping_one_entry_per_key (st : state) :
  NoDup (map Mapping_Kind_API_Version (_get_file_mapping st))
  /\ forall r, In r (extracted_data st) ->
       In (MR_Kind_API_Version r)
          (map Mapping_Kind_API_Version (_get_file_mapping st)).
Proof.
  rewrite ReportFacts.file_mapping_groups, AggregationFacts.mapping_keys.
  destruct (AggregationFacts.mr_groups_from (extracted_data st) [])
    as (_ & _ & _ & Hcov & Hnd).
  pose proof (Permutation_map fst (AggregationFacts.sort_groups_perm
                                     (mr_groups (extracted_data st)))) as Hp.
  split.
  - apply (Permutation_NoDup (Permutation_sym Hp)). apply Hnd. constructor.
  - intros r Hr. apply (Permutation_in _ (Permutation_sym Hp)).
    now apply Hcov.
Qed.

Module MoreFacts.
Import Text Regex Py CompositionExtractor Spec TextFacts TemplateFacts.

Lemma update_functions_stops (before after : list value) (bad : value)
      (st st1 : state) :
  update_functions before st = (Ok tt, st1) ->
  is_hashable bad = false ->
  update_functions (before ++ bad :: after) st = (Raise TypeError, st1).
Proof.
  revert st; induction before as [|name before IH]; intros st; simpl.
  - intros H Hbad; inversion H; subst.
    destruct bad; try discriminate; reflexivity.
  - destruct name as [c| |]; try discriminate. intros H Hbad. now apply IH.
Qed.

Lemma no_suffix_no_label (suffix api : string) :
  contains suffix api = false -> nowhere (label_at suffix) api.
Proof.
  intros H pre rest g -> (post & -> & _).
  assert (Hc : contains suffix (pre ++ g ++ suffix ++ post) = true).
  { apply contains_spec. exists (pre ++ g), post. now rewrite append_assoc. }
  congruence.
Qed.

Lemma leading_label (suffix g rest : string) :
  g <> EmptyString -> forallb_str not_dot g = true ->
  first_in (label_at suffix) (g ++ suffix ++ rest) g.
Proof.
  intros Hg Hdots. exists "", (g ++ suffix ++ rest).
  split; [reflexivity|]. split; [now exists rest|].
  intros pre1 pre2 y Heq Hne. destruct pre1, pre2; simpl in Heq; congruence.
Qed.

Lemma label_is_category_first (g rest : string) :
  g <> EmptyString -> forallb_str not_dot g = true ->
  _get_api_category (g ++ ".crossplane.io" ++ rest) = g.
Proof.
  intros Hg Hdots. unfold _get_api_category.
  destruct (String.eqb (g ++ ".crossplane.io" ++ rest) "") eqn:E.
  - apply String.eqb_eq in E. destruct g; [congruence | discriminate].
  - now rewrite (proj2 (ParserFacts.crossplane_search _ _)
                   (leading_label ".crossplane.io" g rest Hg Hdots)).
Qed.

Lemma label_is_category_second (g rest : string) :
  g <> EmptyString -> forallb_str not_dot g = true ->
  contains ".crossplane.io" (g ++ ".upbound.io" ++ rest) = false ->
  _get_api_category (g ++ ".upbound.io" ++ rest) = g.
Proof.
  intros Hg Hdots Hno. unfold _get_api_category.
  destruct (String.eqb (g ++ ".upbound.io" ++ rest) "") eqn:E.
  - apply String.eqb_eq in E. destruct g; [congruence | discriminate].
  - rewrite (proj2 (ParserFacts.crossplane_search_None _)
               (no_suffix_no_label _ _ Hno)).
    now rewrite (proj2 (ParserFacts.upbound_search _ _)
                   (leading_label ".upbound.io" g rest Hg Hdots)).
Qed.

Lemma state_eta (st : state) :
  {| extracted_data := (extracted_data st ++ [])%list;
     unique_functions := unique_functions st;
     error_log := error_log st |} = st.
Proof. destruct st; simpl. now rewrite app_nil_r. Qed.

Lemma one_document_inert (doc : value) (file_path : string) (st : state) :
  inert_document doc = true -> one_document doc file_path st = (Ok tt, st).
Proof.
  unfold inert_document, one_document. intros H.
  destruct (truthy doc); [|reflexivity]. cbn [negb orb] in H.
  apply andb_true_iff in H as [Hm Ha]. apply negb_true_iff in Ha.
  destruct doc as [c|items|entries]; try discriminate.
  unfold accepted in Ha. cbn [get] in Ha.
  unfold _extract_composition_details, bindM, lift, ret, extend. cbn [get].
  rewrite Ha. cbn [negb]. now rewrite state_eta.
Qed.

Lemma for_documents_inert (docs : list value) (file_path : string) (st : state) :
  forallb inert_document docs = true ->
  for_documents docs false file_path st = (Ok tt, st).
Proof.
  induction docs as [|doc docs IH]; simpl; [reflexivity|].
  intros H. apply andb_true_iff in H as [Hd Hdocs].
  unfold bindM. rewrite (one_document_inert _ _ _ Hd). now apply IH.
Qed.

Lemma process_file_inert (file : entry) (st : state) :
  is_yaml_file file = true -> inert_entry file = true ->
  process_file st file = st.
Proof.
  unfold inert_entry, process_file, attempt. intros -> H. cbn [negb orb] in H.
  destruct (snd file) as [|docs m]; [discriminate|].
  destruct m; [discriminate|].
  now rewrite (for_documents_inert _ _ _ H).
Qed.

End MoreFacts.

(** X25.  A function name that cannot be hashed, a sequence or a mapping,
    makes the update of [self.unique_functions] raise [TypeError]: the
    names before it are in the set, those behind it are not looked at, and
    no row is built. *)
Theorem unhashable_function_name
    (file_path key : string) (before after : list value) (bad : value)
    (rs : list resource) (st st1 : state) :
  update_functions before st = (Ok tt, st1) ->
  is_hashable bad = false ->
  record_and_emit file_path key (before ++ bad :: after) rs st
  = (Raise TypeError, st1).
Proof.
  intros H Hbad. unfold record_and_emit, bindM.
  now rewrite (MoreFacts.update_functions_stops _ after _ _ _ H Hbad).
Qed.

Lemma unhashable_function_name_witness :
  record_and_emit "c.yaml" "XFoo_example.org/v1"
    ([VStr "function-a"] ++ VList [VStr "function-b"] :: [VStr "function-c"])
    [] initial_state
  = (Raise TypeError,
     {| extracted_data := [];
        unique_functions := [SStr "function-a"];
        error_log := [] |}).
Proof.
  apply (unhashable_function_name "c.yaml" "XFoo_example.org/v1"
           [VStr "function-a"] [VStr "function-c"] (VList [VStr "function-b"])
           [] initial_state); reflexivity.
Defined.

(** X26.  An apiVersion of the form [<group>.crossplane.io/<version>], with
    a group that is not empty and holds no dot, passes the domain filter
    and has the group as category; so does [<group>.upbound.io/<version>]
    when [.crossplane.io] occurs nowhere in it. *)
Theorem category_of_leading_group (group version : string) :
  group <> EmptyString ->
  forallb_str not_dot group = true ->
  (_is_crossplane_or_upbound_apiversion (group ++ ".crossplane.io/" ++ version)
   = true
   /\ _get_api_category (group ++ ".crossplane.io/" ++ version) = group)
  /\ (contains ".crossplane.io" (group ++ ".upbound.io/" ++ version) = false ->
      _is_crossplane_or_upbound_apiversion (group ++ ".upbound.io/" ++ version)
      = true
      /\ _get_api_category (group ++ ".upbound.io/" ++ version) = group).
Proof.
  intros Hg Hdots. split.
  - split.
    + unfold _is_crossplane_or_upbound_apiversion.
      apply orb_true_iff. left. apply TemplateFacts.contains_spec.
      now exists group, version.
    + apply (MoreFacts.label_is_category_first group ("/" ++ version) Hg Hdots).
  - intros Hno. split.
    + unfold _is_crossplane_or_upbound_apiversion.
      apply orb_true_iff. right. apply TemplateFacts.contains_spec.
      now exists group, version.
    + apply (MoreFacts.label_is_category_second group ("/" ++ version) Hg Hdots Hno).
Qed.

Lemma category_of_leading_group_witness :
  (_is_crossplane_or_upbound_apiversion "pkg.crossplane.io/v1" = true
   /\ _get_api_category "pkg.crossplane.io/v1" = "pkg")
  /\ (_is_crossplane_or_upbound_apiversion "azure.upbound.io/v1beta1" = true
      /\ _get_api_category "azure.upbound.io/v1beta1" = "azure").
Proof.
  assert (Hpkg : "pkg" <> "") by discriminate.
  assert (Hazure : "azure" <> "") by discriminate.
  destruct (category_of_leading_group "pkg" "v1" Hpkg eq_refl) as (H1 & _).
  destruct (category_of_leading_group "azure" "v1beta1" Hazure eq_refl)
    as (_ & H2).
  split; [exact H1 | exact (H2 eq_refl)].
Defined.

(** X27.  A run over entries that hold no Composition, files that are not
    YAML files or readable, well-formed YAML files whose documents are
    falsy or mappings of another kind, changes nothing: no row, no
    function, no log line. *)
Theorem run_without_compositions (found : list entry) (st : state) :
  forallb inert_entry found = true ->
  extract_compositions found st = st.
Proof.
  unfold extract_compositions.
  induction found as [|file found IH]; simpl; [reflexivity|].
  intros H. apply andb_true_iff in H as [Hf Hfound].
  destruct (is_yaml_file file) eqn:Ey; simpl.
  - rewrite (MoreFacts.process_file_inert _ _ Ey Hf). now apply IH.
  - now apply IH.
Qed.

Lemma run_without_compositions_witness :
  extract_compositions
    [("README.md", Unreadable);
     ("object.yaml", Readable [Examples.nested_instance; VNone] false)]
    initial_state
  = initial_state.
Proof.
  apply (run_without_compositions
           [("README.md", Unreadable);
            ("object.yaml", Readable [Examples.nested_instance; VNone] false)]
           initial_state).
  reflexivity.
Defined.
